(** * Sales-orders ELT pipeline (elt_bigquery.py): a shallow embedding

    The pipeline is one Airflow DAG.  Its only computation is
    [generate_and_upload_sales_data]: it draws [num_orders] fake orders,
    puts them in a pandas DataFrame, serialises the frame with [to_csv],
    uploads the text to a storage bucket and prints a line.  The rest of the
    file wires that task to a chain of warehouse jobs.

    Conventions of the embedding
    - Python [int] is [Z]; a [str] is a [string] holding its UTF-8 bytes.
    - A Python [float] is read as the rational it denotes ([Q]); the result of
      [round(x, 2)] is kept as a whole number of hundredths.
    - A [datetime.date] is its proleptic Gregorian ordinal
      ([date.toordinal()]), day 1 being 0001-01-01.
    - The random sources (Faker and the [random] module) are oracles over an
      abstract generator state that is threaded through the calls in program
      order.
    - Storage, standard output and the clock form an explicit world.
    - Whether the calls of the storage client go through is decided outside
      the program: the credentials it finds and the answer of the service
      are an oracle, fixed while the task runs. *)

From Stdlib Require Import ZArith QArith Qround List Lia Lqa Ascii String DecimalString Bool.
From Stdlib Require OrdersEx DecimalZ DecimalPos.
From stdpp Require Import gmap strings.

Local Open Scope string_scope.
Local Open Scope Z_scope.
Import ListNotations.

(** ** Characters and text *)

Module Text.

Definition dquote : ascii := "034"%char.
Definition newline : ascii := "010"%char.
Definition creturn : ascii := "013"%char.
Definition comma : ascii := ","%char.

Definition is_digit (c : ascii) : bool :=
  let n := nat_of_ascii c in (48 <=? n)%nat && (n <=? 57)%nat.

Fixpoint all_chars (p : ascii -> bool) (s : string) : bool :=
  match s with
  | EmptyString => true
  | String c s' => p c && all_chars p s'
  end.

Fixpoint any_char (p : ascii -> bool) (s : string) : bool :=
  match s with
  | EmptyString => false
  | String c s' => p c || any_char p s'
  end.

(** Python's [sep.join(parts)]. *)
Fixpoint join (sep : string) (parts : list string) : string :=
  match parts with
  | [] => ""
  | [p] => p
  | p :: rest => p ++ sep ++ join sep rest
  end.

Fixpoint concat (parts : list string) : string :=
  match parts with
  | [] => ""
  | p :: rest => p ++ concat rest
  end.

(** [str(n)] for a Python [int]. *)
Definition str_int (z : Z) : string := NilZero.string_of_int (Z.to_int z).

Fixpoint zeros (n : nat) : string :=
  match n with
  | O => ""
  | S k => String "0" (zeros k)
  end.

(** The conversion ["%0<w>d" % n] for a non-negative [n]. *)
Definition zero_pad (w : nat) (z : Z) : string :=
  let s := str_int z in zeros (w - String.length s) ++ s.

(** Exactly [n] characters, all of them digits. *)
Definition is_digits (n : nat) (s : string) : bool :=
  Nat.eqb (String.length s) n && all_chars is_digit s.

(** [c.isalnum()] for a character of ASCII: a digit or a letter. *)
Definition is_ascii_alnum (c : ascii) : bool :=
  let n := nat_of_ascii c in
  ((48 <=? n) && (n <=? 57) || (65 <=? n) && (n <=? 90)
   || (97 <=? n) && (n <=? 122))%nat.

Definition is_ascii (c : ascii) : bool := (nat_of_ascii c <? 128)%nat.

(** A byte that continues a character of more than one byte. *)
Definition is_continuation (c : ascii) : bool :=
  let n := nat_of_ascii c in ((128 <=? n) && (n <? 192))%nat.

Fixpoint continuation_bytes (s : string) : string :=
  match s with
  | EmptyString => EmptyString
  | String c s' =>
      if is_continuation c then String c (continuation_bytes s') else EmptyString
  end.

Fixpoint reverse_onto (s acc : string) : string :=
  match s with
  | EmptyString => acc
  | String c s' => reverse_onto s' (String c acc)
  end.

Definition reverse (s : string) : string := reverse_onto s EmptyString.

(** [s[0]], as the bytes of that character; nothing for the empty string. *)
Definition first_char (s : string) : option string :=
  match s with
  | EmptyString => None
  | String c s' => Some (String c (continuation_bytes s'))
  end.

(** The last character of a text read from its end: the continuation bytes
    met, up to the byte that starts the character. *)
Fixpoint last_char_of (reversed acc : string) : option string :=
  match reversed with
  | EmptyString => None
  | String c r =>
      if is_continuation c then last_char_of r (String c acc)
      else Some (String c acc)
  end.

(** [s[-1]], as the bytes of that character. *)
Definition last_char (s : string) : option string :=
  last_char_of (reverse s) EmptyString.

End Text.

(** ** Calendar dates *)

Module Date.

(** Ordinals of [date.min] and [date.max]. *)
Definition MINORDINAL : Z := 1.
Definition MAXORDINAL : Z := 3652059.

Definition DI400Y : Z := 146097.
Definition DI100Y : Z := 36524.
Definition DI4Y : Z := 1461.

Definition DAYS_IN_MONTH (m : Z) : Z :=
  match m with
  | 1 => 31 | 2 => 28 | 3 => 31 | 4 => 30 | 5 => 31 | 6 => 30
  | 7 => 31 | 8 => 31 | 9 => 30 | 10 => 31 | 11 => 30 | 12 => 31
  | _ => -1
  end.

Definition DAYS_BEFORE_MONTH (m : Z) : Z :=
  match m with
  | 1 => 0 | 2 => 31 | 3 => 59 | 4 => 90 | 5 => 120 | 6 => 151
  | 7 => 181 | 8 => 212 | 9 => 243 | 10 => 273 | 11 => 304 | 12 => 334
  | _ => -1
  end.

(** Month and day of the [n]-th day (from 0) of a year, as the standard
    library's [_ord2ymd] finds them from an estimate that is exact or one
    too large. *)
Definition month_day (leapyear : bool) (n : Z) : Z * Z :=
  let month := Z.shiftr (n + 50) 5 in
  let preceding :=
    DAYS_BEFORE_MONTH month + (if (2 <? month) && leapyear then 1 else 0) in
  if n <? preceding then
    let month' := month - 1 in
    let preceding' :=
      preceding
      - (DAYS_IN_MONTH month' + (if (month' =? 2) && leapyear then 1 else 0)) in
    (month', n - preceding' + 1)
  else (month, n - preceding + 1).

(** [date.fromordinal(n)] as (year, month, day). *)
Definition ord2ymd (ordinal : Z) : Z * Z * Z :=
  let n := ordinal - 1 in
  let n400 := n / DI400Y in
  let n := n mod DI400Y in
  let year := n400 * 400 + 1 in
  let n100 := n / DI100Y in
  let n := n mod DI100Y in
  let n4 := n / DI4Y in
  let n := n mod DI4Y in
  let n1 := n / 365 in
  let n := n mod 365 in
  let year := year + n100 * 100 + n4 * 4 + n1 in
  if (n1 =? 4) || (n100 =? 4) then (year - 1, 12, 31)
  else
    let leapyear := (n1 =? 3) && (negb (n4 =? 24) || (n100 =? 3)) in
    let '(month, day) := month_day leapyear n in
    (year, month, day).

(** [d.isoformat()], which is also [str(d)]: ["%04d-%02d-%02d"]. *)
Definition isoformat (ordinal : Z) : string :=
  let '(y, m, d) := ord2ymd ordinal in
  Text.zero_pad 4 y ++ "-" ++ Text.zero_pad 2 m ++ "-" ++ Text.zero_pad 2 d.

(** The shape YYYY-MM-DD: ten characters, digits around two hyphens. *)
Definition is_iso_date (s : string) : bool :=
  match s with
  | String y1 (String y2 (String y3 (String y4 (String h1
      (String m1 (String m2 (String h2 (String d1 (String d2 EmptyString))))))))) =>
      Text.is_digit y1 && Text.is_digit y2 && Text.is_digit y3 && Text.is_digit y4
      && Ascii.eqb h1 "-" && Text.is_digit m1 && Text.is_digit m2
      && Ascii.eqb h2 "-" && Text.is_digit d1 && Text.is_digit d2
  | _ => false
  end.

End Date.

(** ** Floats rounded to two places *)

Module Float.

(** Nearest integer, ties to the even one. *)
Definition round_half_even (x : Q) : Z :=
  let f := Qfloor x in
  match Qcompare (x - inject_Z f) (1 # 2) with
  | Lt => f
  | Gt => f + 1
  | Eq => if Z.even f then f else f + 1
  end.

(** [round(x, 2)], as the number of hundredths of the result.  Python rounds
    the exact value of the float correctly, ties to even, and returns the
    float nearest to that decimal. *)
Definition round2 (x : Q) : Z := round_half_even (x * inject_Z 100).

(** The decimals of [frac] hundredths, without a trailing zero. *)
Definition frac_text (frac : Z) : string :=
  if frac mod 10 =? 0 then Text.str_int (frac / 10) else Text.zero_pad 2 frac.

(** [repr] of the float nearest to [h / 100]: the shortest decimal that
    reads back as the same float, so a zero in the hundredths place is
    dropped but one decimal always remains.  This is the text for
    magnitudes that a float holds to the hundredth and prints without an
    exponent (below 1e13 here); the amounts of the task are at most
    1000.00. *)
Definition repr (h : Z) : string :=
  let a := Z.abs h in
  (if h <? 0 then "-" else "")
  ++ Text.str_int (a / 100) ++ "." ++ frac_text (a mod 100).

Definition is_dot (c : ascii) : bool := Ascii.eqb c ".".

(** The digits after the last [.] of a rendered number ([None] without one). *)
Fixpoint decimals_from (seen : option nat) (s : string) : option nat :=
  match s with
  | EmptyString => seen
  | String c s' =>
      if is_dot c then decimals_from (Some O) s'
      else decimals_from (option_map S seen) s'
  end.

Definition decimal_places (s : string) : option nat := decimals_from None s.

End Float.

(** ** Reading the text of a value

    Parsers of the texts that stand for values: a decimal integer, a
    decimal number, a calendar date.  They say what a field of the CSV text
    stands for, independently of the functions that wrote it, and they are
    what a load under a typed schema makes of a field.  Amounts are kept in
    hundredths, so [float] reads decimals of at most two places, which is
    what the generator writes; other spellings of a float are not covered. *)

Module Decode.

(** As [_is_leap], [_days_before_year], [_days_in_month],
    [_days_before_month] and [_ymd2ord] of the standard library. *)
Definition is_leap (year : Z) : bool :=
  (year mod 4 =? 0) && (negb (year mod 100 =? 0) || (year mod 400 =? 0)).

Definition days_before_year (year : Z) : Z :=
  let y := year - 1 in y * 365 + y / 4 - y / 100 + y / 400.

Definition month_length (leap : bool) (month : Z) : Z :=
  if (month =? 2) && leap then 29 else Date.DAYS_IN_MONTH month.

Definition days_before (leap : bool) (month : Z) : Z :=
  Date.DAYS_BEFORE_MONTH month + (if (2 <? month) && leap then 1 else 0).

Definition days_in_month (year month : Z) : Z := month_length (is_leap year) month.

Definition days_before_month (year month : Z) : Z := days_before (is_leap year) month.

Definition ymd2ord (year month day : Z) : Z :=
  days_before_year year + days_before_month year month + day.

(** A string of digits. *)
Definition unsigned (s : string) : option Z :=
  option_map Z.of_uint (NilZero.uint_of_string s).

(** INTEGER: digits, with a minus sign or none. *)
Definition integer (s : string) : option Z :=
  option_map Z.of_int (NilZero.int_of_string s).

(** DATE: YYYY-MM-DD naming a day of the calendar. *)
Definition date (s : string) : option Z :=
  if Date.is_iso_date s then
    match unsigned (substring 0 4 s), unsigned (substring 5 2 s),
          unsigned (substring 8 2 s) with
    | Some y, Some m, Some d =>
        if (1 <=? y) && (1 <=? m) && (m <=? 12) && (1 <=? d) && (d <=? days_in_month y m)
        then Some (ymd2ord y m d)
        else None
    | _, _, _ => None
    end
  else None.

(** The text before and after the first [.]. *)
Fixpoint split_dot (s : string) : option (string * string) :=
  match s with
  | EmptyString => None
  | String c s' =>
      if Float.is_dot c then Some (EmptyString, s')
      else option_map (fun p => (String c (fst p), snd p)) (split_dot s')
  end.

Definition hundredths (s : string) : option Z :=
  match split_dot s with
  | None => option_map (Z.mul 100) (unsigned s)
  | Some (ip, fp) =>
      match unsigned ip, unsigned fp, String.length fp with
      | Some i, Some f, 1%nat => Some (100 * i + 10 * f)
      | Some i, Some f, 2%nat => Some (100 * i + f)
      | _, _, _ => None
      end
  end.

(** FLOAT, in hundredths. *)
Definition float (s : string) : option Z :=
  match s with
  | String "-" s' => option_map Z.opp (hundredths s')
  | _ => hundredths s
  end.

Definition is_line_break (c : ascii) : bool :=
  Ascii.eqb c Text.newline || Ascii.eqb c Text.creturn.

(** STRING: any text on one line ([allowQuotedNewlines] is left false). *)
Definition text (s : string) : option string :=
  if Text.any_char is_line_break s then None else Some s.

End Decode.

(** ** DataFrame and CSV *)

Inductive exn : Type :=
| ValueError (msg : string)
| IndexError (msg : string)
(** [google.auth.exceptions.DefaultCredentialsError] *)
| DefaultCredentialsError (msg : string)
(** [google.cloud.exceptions.GoogleCloudError], and what the transport raises *)
| GoogleCloudError (msg : string).

Definition exn_message (e : exn) : string :=
  match e with
  | ValueError msg | IndexError msg | DefaultCredentialsError msg
  | GoogleCloudError msg => msg
  end.

Inductive result (A : Type) : Type :=
| Ok (a : A)
| Raise (e : exn).
Arguments Ok {A} a.
Arguments Raise {A} e.

Module Frame.

(** A value held in a frame.  [CNone] is a missing value. *)
Inductive cell : Type :=
| CInt (n : Z)
| CStr (s : string)
| CFloat (hundredths : Z)
| CDate (ordinal : Z)
| CNone.

(** What [to_csv] writes for a value ([na_rep] is the empty string).  This
    is the text of a value in a column whose values pandas keeps as they
    are, as it does with the five columns of the task, each of one type.
    A column of ints with a float or a missing value among them, which
    pandas turns into floats, is not a frame the task builds and is not
    covered. *)
Definition cell_str (c : cell) : string :=
  match c with
  | CInt n => Text.str_int n
  | CStr s => s
  | CFloat h => Float.repr h
  | CDate d => Date.isoformat d
  | CNone => ""
  end.

(** A frame built from a dict of lists: the columns in insertion order. *)
Definition DataFrame : Type := list (string * list cell).

Definition same_length (n : nat) (col : string * list cell) : bool :=
  Nat.eqb (length (snd col)) n.

(** [pd.DataFrame(data)] refuses columns of different lengths. *)
Definition pd_DataFrame (data : list (string * list cell)) : result DataFrame :=
  match data with
  | [] => Ok []
  | (_, c) :: rest =>
      if forallb (same_length (length c)) rest then Ok data
      else Raise (ValueError "All arrays must be of the same length")
  end.

Definition columns (df : DataFrame) : list string := map fst df.

Definition nrows (df : DataFrame) : nat :=
  match df with
  | [] => O
  | (_, c) :: _ => length c
  end.

Definition row (df : DataFrame) (i : nat) : list cell :=
  map (fun col => nth i (snd col) CNone) df.

Definition rows (df : DataFrame) : list (list cell) :=
  map (row df) (seq 0 (nrows df)).

End Frame.

Module Csv.

(** The excel dialect with [QUOTE_MINIMAL], as pandas sets the writer up.
    A carriage return counts as special, as it does from Python 3.13 on;
    before that the writer leaves one that stands alone unquoted.  No name
    or word of Faker holds one, and statements about arbitrary fields
    exclude it. *)
Definition special (c : ascii) : bool :=
  Ascii.eqb c Text.comma || Ascii.eqb c Text.dquote
  || Ascii.eqb c Text.newline || Ascii.eqb c Text.creturn.

Fixpoint double_quotes (s : string) : string :=
  match s with
  | EmptyString => EmptyString
  | String c s' =>
      if Ascii.eqb c Text.dquote
      then String Text.dquote (String Text.dquote (double_quotes s'))
      else String c (double_quotes s')
  end.

Definition quoted (s : string) : string :=
  String Text.dquote (double_quotes s ++ String Text.dquote EmptyString).

Definition write_field (s : string) : string :=
  if Text.any_char special s then quoted s else s.

Definition lineterminator : string := String Text.newline EmptyString.

(** [writer.writerow(fields)]; a record of one empty field is quoted so that
    it is not taken for a blank line. *)
Definition writerow (fields : list string) : string :=
  match fields with
  | [EmptyString] => quoted EmptyString ++ lineterminator
  | _ => Text.join "," (map write_field fields) ++ lineterminator
  end.

(** [df.to_csv(buf, index=False)]: the header, then one record per row. *)
Definition to_csv (df : Frame.DataFrame) : string :=
  writerow (Frame.columns df)
  ++ Text.concat (map (fun r => writerow (map Frame.cell_str r)) (Frame.rows df)).

(** Reading the text back into records of fields, with the state machine
    of a CSV reader for the same dialect.  This is how the records and
    fields of a payload are told apart below. *)
Inductive rstate : Type :=
| START_RECORD
| START_FIELD
| IN_FIELD
| IN_QUOTED_FIELD
| QUOTE_IN_QUOTED_FIELD.

Definition snoc (s : string) (c : ascii) : string := s ++ String c EmptyString.

Definition push (record : list string) (field : string) : list string :=
  (record ++ [field])%list.

Fixpoint read (st : rstate) (field : string) (record : list string) (s : string)
  : list (list string) :=
  match s with
  | EmptyString =>
      match st with
      | START_RECORD => []
      | _ => [push record field]
      end
  | String c s' =>
      match st with
      | START_RECORD | START_FIELD =>
          if Ascii.eqb c Text.newline then
            match st with
            | START_RECORD => [] :: read START_RECORD "" [] s'
            | _ => (push record field) :: read START_RECORD "" [] s'
            end
          else if Ascii.eqb c Text.dquote then read IN_QUOTED_FIELD field record s'
          else if Ascii.eqb c Text.comma then read START_FIELD "" (push record field) s'
          else read IN_FIELD (snoc field c) record s'
      | IN_FIELD =>
          if Ascii.eqb c Text.newline
          then (push record field) :: read START_RECORD "" [] s'
          else if Ascii.eqb c Text.comma then read START_FIELD "" (push record field) s'
          else read IN_FIELD (snoc field c) record s'
      | IN_QUOTED_FIELD =>
          if Ascii.eqb c Text.dquote then read QUOTE_IN_QUOTED_FIELD field record s'
          else read IN_QUOTED_FIELD (snoc field c) record s'
      | QUOTE_IN_QUOTED_FIELD =>
          if Ascii.eqb c Text.dquote then read IN_QUOTED_FIELD (snoc field c) record s'
          else if Ascii.eqb c Text.comma then read START_FIELD "" (push record field) s'
          else if Ascii.eqb c Text.newline
          then (push record field) :: read START_RECORD "" [] s'
          else read IN_FIELD (snoc field c) record s'
      end
  end.

Definition reader (s : string) : list (list string) := read START_RECORD "" [] s.

(** What the reader does after a field, by the delimiter that ends it. *)
Definition after_field (record : list string) (field : string) (sep : ascii)
    (rest : string) : list (list string) :=
  if Ascii.eqb sep Text.newline
  then push record field :: read START_RECORD "" [] rest
  else read START_FIELD "" (push record field) rest.

End Csv.

(** ** The world of the task, and computations in it *)

(** The random sources the task draws from.  [Rand] is the joint state of the
    Faker instance and of the [random] module; every call consumes it. *)
Class RandomSources (Rand : Type) : Type := {
  (** [fake.name()] *)
  fake_name : Rand -> string * Rand;
  (** [fake.word()] *)
  fake_word : Rand -> string * Rand;
  (** [random.uniform(a, b)] *)
  random_uniform : Q -> Q -> Rand -> Q * Rand;
  (** [fake.date_between_dates(date_start, date_end)], on ordinals *)
  fake_date_between_dates : Z -> Z -> Rand -> Z * Rand
}.

(** What decides, outside the program, whether the calls of the storage
    client go through.  It is taken to stay as it is while the task runs. *)
Class StorageService : Type := {
  (** what [storage.Client()] raises when it finds no credentials or no
      project; [None] when it finds them *)
  client_error : option exn;
  (** what the upload of an object, named by bucket and object name, raises
      when the service or the transport refuses it; [None] when it is
      accepted *)
  upload_error : string -> string -> option exn;
  (** [ch.isalnum()] for a character beyond ASCII, given by its bytes *)
  isalnum_beyond_ascii : string -> bool
}.

(** An object of a bucket. *)
Record Blob : Type := mkBlob {
  blob_data : string;
  blob_content_type : string
}.

Record World (Rand : Type) : Type := mkWorld {
  rng : Rand;
  (** [date.today()], as an ordinal *)
  today : Z;
  (** object storage, keyed by bucket and object name *)
  gcs : gmap (string * string) Blob;
  (** lines printed so far *)
  stdout : list string
}.
Arguments mkWorld {Rand}.
Arguments rng {Rand}.
Arguments today {Rand}.
Arguments gcs {Rand}.
Arguments stdout {Rand}.

(** A computation: it reads and changes the world, and returns or raises. *)
Definition M (Rand A : Type) : Type := World Rand -> result (A * World Rand).

Definition ret {Rand A : Type} (a : A) : M Rand A := fun w => Ok (a, w).

Definition bind {Rand A B : Type} (m : M Rand A) (k : A -> M Rand B) : M Rand B :=
  fun w =>
    match m w with
    | Ok (a, w') => k a w'
    | Raise e => Raise e
    end.

Definition lift {Rand A : Type} (r : result A) : M Rand A :=
  fun w =>
    match r with
    | Ok a => Ok (a, w)
    | Raise e => Raise e
    end.

Notation "x <- m ;; k" := (bind m (fun x => k))
  (at level 100, m at next level, right associativity).
Notation "m ;; k" := (bind m (fun _ => k))
  (at level 100, right associativity).

(** [[m for _ in range(n)]], with [n] the number of iterations. *)
Fixpoint comprehension {Rand A : Type} (n : nat) (m : M Rand A) : M Rand (list A) :=
  match n with
  | O => ret []
  | S k => x <- m ;; xs <- comprehension k m ;; ret (x :: xs)
  end.

(** [len(range(n))]: nothing for a negative [n]. *)
Definition range_len (n : Z) : nat := Z.to_nat n.

(** [list(range(lo, hi))]. *)
Definition py_range (lo hi : Z) : list Z :=
  map (fun i => lo + Z.of_nat i) (seq 0 (Z.to_nat (hi - lo))).

(** The two date arguments the task passes to Faker: ['today'] and a
    signed number of days such as ['-30d'], both relative to the clock. *)
Inductive date_arg : Type :=
| Today
| Days (n : Z).

Definition parse_date (now : Z) (a : date_arg) : Z :=
  match a with
  | Today => now
  | Days n => now + n
  end.

Section Task.

Context {Rand : Type} {sources : RandomSources Rand} {service : StorageService}.

Definition draw {A : Type} (f : Rand -> A * Rand) : M Rand A :=
  fun w =>
    let '(a, g) := f (rng w) in
    Ok (a, mkWorld g (today w) (gcs w) (stdout w)).

Definition name : M Rand string := draw fake_name.

Definition word : M Rand string := draw fake_word.

Definition uniform (a b : Q) : M Rand Q := draw (random_uniform a b).

(** [fake.date_between(start_date, end_date)]: both arguments are resolved
    against the clock, then a date between them is drawn.  The clock is
    taken to show a date from which 30 days can be subtracted, as any
    reading of it does, and to stay on that date while the task runs. *)
Definition date_between (start_date end_date : date_arg) : M Rand Z :=
  fun w =>
    draw (fake_date_between_dates (parse_date (today w) start_date)
                                  (parse_date (today w) end_date)) w.

(** [storage.Client()]: it needs credentials and a project, which it looks
    for in the environment. *)
Definition storage_Client : M Rand unit :=
  fun w =>
    match client_error with
    | None => Ok (tt, w)
    | Some e => Raise e
    end.

(** [ch.isalnum()] for one character, given by its bytes. *)
Definition isalnum (ch : string) : bool :=
  match ch with
  | String c EmptyString =>
      if Text.is_ascii c then Text.is_ascii_alnum c else isalnum_beyond_ascii ch
  | _ => isalnum_beyond_ascii ch
  end.

(** The check of the name that [client.bucket(name)] makes, [_validate_name]
    of the storage library, before any request:
    [all([name[0].isalnum(), name[-1].isalnum()])], or a [ValueError]. *)
Definition validate_name (bucket_name : string) : result string :=
  match Text.first_char bucket_name, Text.last_char bucket_name with
  | Some a, Some z =>
      if isalnum a && isalnum z then Ok bucket_name
      else Raise (ValueError "Bucket names must start and end with a number or letter.")
  | _, _ => Raise (IndexError "string index out of range")
  end.

(** [client.bucket(bucket_name)]: the bucket object, here its name. *)
Definition client_bucket (bucket_name : string) : M Rand string :=
  lift (validate_name bucket_name).

(** [bucket.blob(path).upload_from_string(data, content_type)]: when the
    service accepts the upload the object is created or replaced.  The text
    is stored as its UTF-8 bytes, which is what a [string] holds here. *)
Definition upload_from_string (bucket path data content_type : string) : M Rand unit :=
  fun w =>
    match upload_error bucket path with
    | Some e => Raise e
    | None =>
        Ok (tt, mkWorld (rng w) (today w)
                  (<[(bucket, path) := mkBlob data content_type]> (gcs w)) (stdout w))
    end.

Definition print (line : string) : M Rand unit :=
  fun w => Ok (tt, mkWorld (rng w) (today w) (gcs w) (stdout w ++ [line])%list).

(** Lines 39 to 46 of the task: the dict of five lists, drawn in the order
    the dict display evaluates them.  Creating the Faker instance is part of
    the initial state of the random sources. *)
Definition build_data (num_orders : Z) : M Rand (list (string * list Frame.cell)) :=
  let order_id := py_range 1 (num_orders + 1) in
  customer_name <- comprehension (range_len num_orders) name ;;
  order_amount <- comprehension (range_len num_orders)
      (x <- uniform (inject_Z 10) (inject_Z 1000) ;; ret (Float.round2 x)) ;;
  order_date <- comprehension (range_len num_orders) (date_between (Days (-30)) Today) ;;
  product <- comprehension (range_len num_orders) word ;;
  ret [ ("order_id", map Frame.CInt order_id);
        ("customer_name", map Frame.CStr customer_name);
        ("order_amount", map Frame.CFloat order_amount);
        ("order_date", map Frame.CDate order_date);
        ("product", map Frame.CStr product) ].

(** Lines 48 to 53: the frame and its CSV text. *)
Definition build_csv (num_orders : Z) : M Rand string :=
  data <- build_data num_orders ;;
  df <- lift (Frame.pd_DataFrame data) ;;
  ret (Csv.to_csv df).

Definition DEFAULT_NUM_ORDERS : Z := 500.

(** Lines 55 to 60: the client, the bucket, the blob, the upload and the
    message.  An exception of one of the calls ends the function there. *)
Definition upload_csv (bucket_name gcs_path csv_data : string) : M Rand unit :=
  storage_Client ;;
  bucket <- client_bucket bucket_name ;;
  upload_from_string bucket gcs_path csv_data "text/csv" ;;
  print ("Data uploaded to gs://" ++ bucket_name ++ "/" ++ gcs_path).

(** The task's callable.  [num_orders] is [None] when the caller leaves it
    out.  The function has no [return]: its result is [None]. *)
Definition generate_and_upload_sales_data
    (bucket_name gcs_path : string) (num_orders : option Z) : M Rand unit :=
  let num_orders := default DEFAULT_NUM_ORDERS num_orders in
  csv_data <- build_csv num_orders ;;
  upload_csv bucket_name gcs_path csv_data.

End Task.

(** ** Orders, row by row

    The frame is columnar; an order is one position across the five lists. *)

Record OrderRecord : Type := mkOrder {
  order_id : Z;
  customer_name : string;
  (** in hundredths *)
  order_amount : Z;
  (** as an ordinal *)
  order_date : Z;
  product : string
}.

(** The dict of lists whose [i]-th entries are the [i]-th order. *)
Definition data_of (orders : list OrderRecord) : list (string * list Frame.cell) :=
  [ ("order_id", map (fun o => Frame.CInt (order_id o)) orders);
    ("customer_name", map (fun o => Frame.CStr (customer_name o)) orders);
    ("order_amount", map (fun o => Frame.CFloat (order_amount o)) orders);
    ("order_date", map (fun o => Frame.CDate (order_date o)) orders);
    ("product", map (fun o => Frame.CStr (product o)) orders) ].

Definition cells_of (o : OrderRecord) : list Frame.cell :=
  [ Frame.CInt (order_id o); Frame.CStr (customer_name o);
    Frame.CFloat (order_amount o); Frame.CDate (order_date o);
    Frame.CStr (product o) ].

(** The fields of the CSV record of an order. *)
Definition fields_of (o : OrderRecord) : list string :=
  map Frame.cell_str (cells_of o).

Definition header : list string :=
  [ "order_id"; "customer_name"; "order_amount"; "order_date"; "product" ].

(** ** Specifications of computations *)

(** [w'] differs from [w] at most in the state of the random sources. *)
Definition only_rng {Rand : Type} (w w' : World Rand) : Prop :=
  today w' = today w /\ gcs w' = gcs w /\ stdout w' = stdout w.

(** [m] returns from [w], with a value and a world that satisfy [post]. *)
Definition returns {Rand A : Type} (m : M Rand A) (w : World Rand)
    (post : A -> World Rand -> Prop) : Prop :=
  exists a w', m w = Ok (a, w') /\ post a w'.

(** [a] is a value the oracle [f] gives in some state. *)
Definition drawn {Rand A : Type} (f : Rand -> A * Rand) (a : A) : Prop :=
  exists g, fst (f g) = a.

(** What the library documents of the random sources. *)
Section Contracts.

Context {Rand : Type} {sources : RandomSources Rand}.

(** [random.uniform(a, b)] lies between [a] and [b]. *)
Definition uniform_in_range : Prop :=
  forall (a b : Q) (g : Rand),
    (a <= b)%Q -> (a <= fst (random_uniform a b g) <= b)%Q.

(** [date_between_dates] gives a date from the first to the second. *)
Definition date_in_range : Prop :=
  forall (lo hi : Z) (g : Rand),
    lo <= hi -> lo <= fst (fake_date_between_dates lo hi g) <= hi.

(** A name and a word are never empty. *)
Definition names_nonempty : Prop := forall g : Rand, fst (fake_name g) <> "".
Definition words_nonempty : Prop := forall g : Rand, fst (fake_word g) <> "".

(** Each field of the order is a value its source gives in some state, for
    a clock that shows [now]. *)
Definition order_drawn (now : Z) (o : OrderRecord) : Prop :=
  drawn fake_name (customer_name o)
  /\ (exists x, drawn (random_uniform (inject_Z 10) (inject_Z 1000)) x
               /\ order_amount o = Float.round2 x)
  /\ drawn (fake_date_between_dates (now + -30) now) (order_date o)
  /\ drawn fake_word (product o).

End Contracts.

(** ** The load schema *)

Inductive bq_type : Type := INTEGER | STRING | FLOAT | DATE.
Inductive bq_mode : Type := REQUIRED | NULLABLE.

Record field_schema : Type := mkField {
  field_name : string;
  field_type : bq_type;
  field_mode : bq_mode
}.

Definition schema_fields : list field_schema :=
  [ mkField "order_id" INTEGER REQUIRED;
    mkField "customer_name" STRING REQUIRED;
    mkField "order_amount" FLOAT REQUIRED;
    mkField "order_date" DATE REQUIRED;
    mkField "product" STRING REQUIRED ].

(** ** A sample of random sources

    A counter stands for the generator state; each draw advances it. *)

Module Sample.

Definition sample_name (g : nat) : string * nat :=
  (match (g mod 3)%nat with
   | O => "Rick Grimes"
   | S O => "Smith, John"
   | _ => "Ada Lovelace"
   end, S g).

Definition sample_word (g : nat) : string * nat :=
  (match (g mod 2)%nat with
   | O => "widget"
   | _ => "gadget"
   end, S g).

(** The point [a + (b - a) * (g mod 8) / 8] of the interval. *)
Definition sample_uniform (a b : Q) (g : nat) : Q * nat :=
  ((a + (b - a) * (Z.of_nat (g mod 8) # 8))%Q, S g).

Definition sample_date (lo hi : Z) (g : nat) : Z * nat :=
  (lo + Z.of_nat g mod (hi - lo + 1), S g).

#[export] Instance sample_sources : RandomSources nat := {
  fake_name := sample_name;
  fake_word := sample_word;
  random_uniform := sample_uniform;
  fake_date_between_dates := sample_date
}.

(** A service that finds credentials and has the one bucket sales-bucket. *)
#[export] Instance sample_service : StorageService := {
  client_error := None;
  upload_error := fun bucket _ =>
    if String.eqb bucket "sales-bucket" then None
    else Some (GoogleCloudError "404 The specified bucket does not exist.");
  isalnum_beyond_ascii := fun _ => false
}.

(** A world on 2024-11-18 with an empty store and nothing printed. *)
Definition world0 : World nat := mkWorld O 739208 ∅ [].

End Sample.

(** ** The DAG *)

Module Dag.

Inductive task : Type :=
| start_task
| generate_sales_data
| load_to_bigquery
| insert_sales_orders_task
| call_procedure_task
| transform_bq_data
| transform_bq_data_2
| end_task.

#[export] Instance task_eq_dec : EqDecision task.
Proof. solve_decision. Defined.

(** The statement a query job submits. *)
Inductive statement : Type :=
| CREATE_PROCEDURE
| CALL_PROCEDURE
| SELECT_ORDER_CATEGORIES
| SELECT_CUSTOMER_TOTALS.

(** Where a query job writes its result, if it names a destination. *)
Inductive table : Type :=
| BIGQUERY_TABLE
| TRANSFORMED_TABLE
| AMOUNT_TABLE.

Inductive operator : Type :=
| EmptyOperator
| PythonOperator (num_orders : Z)
| LoadJob (destination : table) (skipLeadingRows : Z) (schema : list field_schema)
| QueryJob (query : statement) (destination : option table).

Definition operator_of (t : task) : operator :=
  match t with
  | start_task | end_task => EmptyOperator
  | generate_sales_data => PythonOperator 500
  | load_to_bigquery => LoadJob BIGQUERY_TABLE 1 schema_fields
  | insert_sales_orders_task => QueryJob CREATE_PROCEDURE None
  | call_procedure_task => QueryJob CALL_PROCEDURE None
  | transform_bq_data => QueryJob SELECT_ORDER_CATEGORIES (Some TRANSFORMED_TABLE)
  | transform_bq_data_2 => QueryJob SELECT_CUSTOMER_TOTALS (Some AMOUNT_TABLE)
  end.

(** [a >> b] makes [b] downstream of [a] and evaluates to [b], so a chain
    links each task to the next one. *)
Definition rshift (acc : list (task * task) * task) (b : task)
  : list (task * task) * task :=
  let '(edges, a) := acc in ((edges ++ [(a, b)])%list, b).

Definition dependencies : list (task * task) :=
  fst (fold_left rshift
         [ generate_sales_data; load_to_bigquery; insert_sales_orders_task;
           call_procedure_task; transform_bq_data; transform_bq_data_2; end_task ]
         ([], start_task)).

Inductive outcome : Type := success | failed.

#[export] Instance outcome_eq_dec : EqDecision outcome.
Proof. solve_decision. Defined.

Definition upstream (t : task) : list task :=
  map fst (filter (fun e => bool_decide (snd e = t)) dependencies).

(** With the default trigger rule a task may run once, after every task
    directly upstream of it has succeeded. *)
Definition ready (done : list (task * outcome)) (t : task) : bool :=
  negb (bool_decide (t ∈ map fst done))
  && forallb (fun u => bool_decide ((u, success) ∈ done)) (upstream t).

(** The task instances of one DAG run, in the order they ran. *)
Inductive run : list (task * outcome) -> Prop :=
| run_nil : run []
| run_step (done : list (task * outcome)) (t : task) (o : outcome) :
    run done -> ready done t = true -> run (done ++ [(t, o)])%list.

(** The order the chain is written in. *)
Definition declared_order : list task :=
  [ start_task; generate_sales_data; load_to_bigquery; insert_sales_orders_task;
    call_procedure_task; transform_bq_data; transform_bq_data_2; end_task ].

(** The run in which every task succeeds. *)
Definition full_run : list (task * outcome) :=
  map (fun t => (t, success)) declared_order.

(** The runs that stop after task number [k], which succeeds or fails after
    the tasks before it have succeeded. *)
Definition run_to (k : nat) (o : outcome) : list (task * outcome) :=
  (map (fun t => (t, success)) (take k declared_order)
   ++ [(nth k declared_order end_task, o)])%list.

Definition chain_runs : list (list (task * outcome)) :=
  [] :: flat_map (fun k => [run_to k success; run_to k failed]) (seq 0 8).

Definition run_eqb (a b : list (task * outcome)) : bool := bool_decide (a = b).

Definition in_chain_runs (done : list (task * outcome)) : bool :=
  existsb (run_eqb done) chain_runs.

Definition tasks_eqb (a b : list task) : bool := bool_decide (a = b).

Definition order_nodup : bool := bool_decide (NoDup declared_order).

End Dag.

(** ** Statements the code is tested against *)

(** Every record after the header has an ISO date in its fourth field and an
    amount with exactly two decimal places in its third. *)
Definition dates_iso_amounts_two_places (csv : string) : Prop :=
  forall rec : list string,
    In rec (tl (Csv.reader csv)) ->
    Date.is_iso_date (nth 3 rec "") = true
    /\ Float.decimal_places (nth 2 rec "") = Some 2%nat.


(** A computation that returns from every world: it never raises. *)
Definition never_raises {Rand A : Type} (m : M Rand A) : Prop :=
  forall w : World Rand, exists (a : A) (w' : World Rand), m w = Ok (a, w').

(** * Beyond the claims: definitions *)

(** [n] successive draws from the oracle [f], and the state after them. *)
Fixpoint draws {Rand A : Type} (f : Rand -> A * Rand) (n : nat) (g : Rand)
  : list A * Rand :=
  match n with
  | O => ([], g)
  | S k =>
      let '(a, g1) := f g in
      let '(l, g2) := draws f k g1 in
      (a :: l, g2)
  end.

(** Decidable readings of runs, for checking the finitely many of them. *)
Module DagCheck.

#[local] Existing Instance Dag.task_eq_dec.
#[local] Existing Instance Dag.outcome_eq_dec.

Definition all_succeeded (done : list (Dag.task * Dag.outcome)) : bool :=
  forallb (fun p => bool_decide (snd p = Dag.success)) done.

Definition is_next (done : list (Dag.task * Dag.outcome)) (t : Dag.task) : bool :=
  bool_decide (Dag.declared_order !! length done = Some t).

Definition ready_iff_next (done : list (Dag.task * Dag.outcome)) : bool :=
  forallb (fun t => Bool.eqb (Dag.ready done t) (all_succeeded done && is_next done t))
    Dag.declared_order.

Definition has_task (t : Dag.task) (done : list (Dag.task * Dag.outcome)) : bool :=
  bool_decide (t ∈ map fst done).

Definition failure_is_last (done : list (Dag.task * Dag.outcome)) : bool :=
  all_succeeded (removelast done).

Definition complete_is_full (done : list (Dag.task * Dag.outcome)) : bool :=
  negb (has_task Dag.end_task done) || Dag.tasks_eqb (map fst done) Dag.declared_order.

End DagCheck.

(** ** The warehouse *)

(** A job ends done or failed. *)
Inductive job_result (A : Type) : Type :=
| Done (a : A)
| Failed (reason : string).
Arguments Done {A} a.
Arguments Failed {A} reason.

Definition job_bind {A B : Type} (r : job_result A) (k : A -> job_result B)
  : job_result B :=
  match r with
  | Done a => k a
  | Failed reason => Failed reason
  end.

Fixpoint for_each {A B : Type} (f : A -> job_result B) (l : list A)
  : job_result (list B) :=
  match l with
  | [] => Done []
  | a :: l' =>
      job_bind (f a) (fun b => job_bind (for_each f l') (fun bs => Done (b :: bs)))
  end.

Module Load.

(** One field under its column.  The empty field is the null marker, which
    a REQUIRED column refuses. *)
Definition field (column : field_schema) (s : string) : job_result Frame.cell :=
  if String.eqb s "" then
    match field_mode column with
    | REQUIRED => Failed "Required column value is missing"
    | NULLABLE => Done Frame.CNone
    end
  else
    match
      match field_type column with
      | INTEGER => option_map Frame.CInt (Decode.integer s)
      | STRING => option_map Frame.CStr (Decode.text s)
      | FLOAT => option_map Frame.CFloat (Decode.float s)
      | DATE => option_map Frame.CDate (Decode.date s)
      end
    with
    | Some c => Done c
    | None => Failed "Could not parse the value"
    end.

(** One record under the schema: a field for every column, no more. *)
Fixpoint record (schema : list field_schema) (fields : list string)
  : job_result (list Frame.cell) :=
  match schema, fields with
  | [], [] => Done []
  | column :: schema', s :: fields' =>
      job_bind (field column s) (fun c =>
      job_bind (record schema' fields') (fun cs => Done (c :: cs)))
  | _, _ => Failed "Wrong number of columns"
  end.

(** The rows of a CSV source: the leading records are skipped, and one bad
    record fails the job ([maxBadRecords] is left at 0). *)
Definition rows (skipLeadingRows : Z) (schema : list field_schema) (source : string)
  : job_result (list (list Frame.cell)) :=
  for_each (record schema) (drop (Z.to_nat skipLeadingRows) (Csv.reader source)).

(** A row of the five columns of [schema_fields], as an order. *)
Definition order_of_cells (cells : list Frame.cell) : job_result OrderRecord :=
  match cells with
  | [Frame.CInt i; Frame.CStr n; Frame.CFloat a; Frame.CDate d; Frame.CStr p] =>
      Done (mkOrder i n a d p)
  | _ => Failed "Schema does not match the table"
  end.

(** The source URI of the load job, [f"gs://{BUCKET_NAME}/{GCS_PATH}"]. *)
Definition gs_uri (bucket path : string) : string :=
  "gs://" ++ bucket ++ "/" ++ path.

Definition is_slash (c : ascii) : bool := Ascii.eqb c "/".

Fixpoint split_slash (s : string) : option (string * string) :=
  match s with
  | EmptyString => None
  | String c s' =>
      if is_slash c then Some (EmptyString, s')
      else option_map (fun p => (String c (fst p), snd p)) (split_slash s')
  end.

(** The bucket and the object part of a URI: the bucket ends at the first
    slash after the scheme. *)
Definition parse_gs_uri (uri : string) : option (string * string) :=
  if String.prefix "gs://" uri
  then split_slash (substring 5 (String.length uri - 5) uri)
  else None.

Definition is_star (c : ascii) : bool := Ascii.eqb c "*".

Fixpoint split_star (s : string) : option (string * string) :=
  match s with
  | EmptyString => None
  | String c s' =>
      if is_star c then Some (EmptyString, s')
      else option_map (fun p => (String c (fst p), snd p)) (split_star s')
  end.

Definition ends_with (suffix s : string) : bool :=
  String.prefix (Text.reverse suffix) (Text.reverse s).

(** A name that starts with [before] and goes on to end with [after]. *)
Definition covers (before after name : string) : bool :=
  (String.length before + String.length after <=? String.length name)%nat
  && String.prefix before name && ends_with after name.

(** The objects a source URI names.  Without a [*] in its object part it
    names that object; with one, every object of the bucket whose name
    starts with what is before the [*] and ends with what is after it;
    more than one [*] is refused.  The objects come in the order of the
    store, which a table does not keep. *)
Definition source_objects (uri : string) (store : gmap (string * string) Blob)
  : job_result (list Blob) :=
  match parse_gs_uri uri with
  | None => Failed "Invalid source URI"
  | Some (bucket, object) =>
      match split_star object with
      | None =>
          match store !! (bucket, object) with
          | Some blob => Done [blob]
          | None => Failed "Not found: URI"
          end
      | Some (before, after) =>
          if Text.any_char is_star after then Failed "Invalid source URI"
          else
            match List.filter
                    (fun entry =>
                       String.eqb (fst (fst entry)) bucket
                       && covers before after (snd (fst entry)))
                    (map_to_list store) with
            | [] => Failed "Not found: URI"
            | found => Done (map snd found)
            end
      end
  end.

End Load.

Module Sql.

(** The CASE of [transform_bq_qry], on an amount in hundredths: below 100
    is Small, from 100 to 500 (BETWEEN takes both ends) Medium, the rest
    Large. *)
Definition order_category (order_amount : Z) : string :=
  if order_amount <? 10000 then "Small"
  else if (10000 <=? order_amount) && (order_amount <=? 50000) then "Medium"
  else "Large".

(** A row of the transformed table: the five columns of the order, its
    category and the time of the query. *)
Record CategorisedOrder : Type := mkCategorised {
  order : OrderRecord;
  category : string;
  load_timestamp : Z
}.

(** [transform_bq_qry]: every row of the table, with its category and
    [CURRENT_TIMESTAMP()], which is one value for the whole query. *)
Definition transform_bq_qry (current_timestamp : Z) (sales : list OrderRecord)
  : list CategorisedOrder :=
  map (fun o => mkCategorised o (order_category (order_amount o)) current_timestamp)
    sales.

(** A row of the amounts table.  The total is a floating-point sum, which
    is not evaluated here: [spent] lists the amounts that are added. *)
Record CustomerTotal : Type := mkTotal {
  customer : string;
  number_of_orders : Z;
  spent : list Z
}.

(** GROUP BY customer_name, the groups kept in ascending order of the name
    for the ORDER BY. *)
Fixpoint add_to_groups (o : OrderRecord) (groups : list (string * list OrderRecord))
  : list (string * list OrderRecord) :=
  match groups with
  | [] => [(customer_name o, [o])]
  | (k, os) :: rest =>
      match OrdersEx.String_as_OT.compare (customer_name o) k with
      | Eq => (k, (os ++ [o])%list) :: rest
      | Lt => (customer_name o, [o]) :: groups
      | Gt => (k, os) :: add_to_groups o rest
      end
  end.

Definition group_by_customer (sales : list OrderRecord)
  : list (string * list OrderRecord) :=
  fold_left (fun groups o => add_to_groups o groups) sales [].

(** [transform_bq_qry_2]: for every customer name the count of its orders
    and their amounts, by ascending name. *)
Definition transform_bq_qry_2 (sales : list OrderRecord) : list CustomerTotal :=
  map (fun g => mkTotal (fst g) (Z.of_nat (length (snd g))) (map order_amount (snd g)))
    (group_by_customer sales).

(** The arguments of [call_procedure]: 234, 'Rick Grimes', 150.00,
    '2024-11-18', 'Widget A'. *)
Definition call_arguments : OrderRecord :=
  mkOrder 234 "Rick Grimes" 15000 739208 "Widget A".

(** What a stored procedure of five arguments does to the orders table,
    which may not exist. *)
Definition routine : Type :=
  OrderRecord -> option (list OrderRecord) -> job_result (list OrderRecord).

(** The body that [insert_sales_orders] gives the procedure: one INSERT of
    its arguments into the table. *)
Definition insert_sales_orders : routine :=
  fun arguments table =>
    match table with
    | None => Failed "Not found: Table"
    | Some sales => Done (sales ++ [arguments])%list
    end.

End Sql.

(** The warehouse as the DAG uses it: the table of orders, the two derived
    tables and the procedure.  The three table variables are taken to name
    three different tables of one existing dataset; a table that exists has
    the columns the DAG gives it.  [None] is a table or a procedure that
    does not exist. *)
Record Warehouse : Type := mkWarehouse {
  sales_orders : option (list OrderRecord);
  transformed_orders : option (list Sql.CategorisedOrder);
  customer_totals : option (list Sql.CustomerTotal);
  procedure : option Sql.routine
}.

(** The two configuration values that decide where the payload goes. *)
Record Config : Type := mkConfig {
  BUCKET_NAME : string;
  GCS_PATH : string
}.

Module Job.

Section Jobs.

Context {Rand : Type} {sources : RandomSources Rand} {service : StorageService}.

Definition State : Type := World Rand * Warehouse.

(** The Python task: the callable with the [op_kwargs] of the DAG.  An
    exception fails the task. *)
Definition generate_sales_data (cfg : Config) (s : State) : job_result State :=
  match generate_and_upload_sales_data (BUCKET_NAME cfg) (GCS_PATH cfg) (Some 500)
          (fst s) with
  | Ok (_, w) => Done (w, snd s)
  | Raise e => Failed (exn_message e)
  end.

(** The load job: every CSV object the source URI names, less one leading
    row each, is read under [schema_fields] and appended (WRITE_APPEND) to
    the orders table, which is created if it is not there.  A job that
    fails changes nothing. *)
Definition load_to_bigquery (cfg : Config) (s : State) : job_result State :=
  job_bind
    (Load.source_objects (Load.gs_uri (BUCKET_NAME cfg) (GCS_PATH cfg)) (gcs (fst s)))
    (fun blobs =>
  job_bind (for_each (fun blob => Load.rows 1 schema_fields (blob_data blob)) blobs)
    (fun rows =>
  job_bind (for_each Load.order_of_cells (List.concat rows)) (fun orders =>
  let wh := snd s in
  Done (fst s,
        mkWarehouse (Some (default [] (sales_orders wh) ++ orders)%list)
          (transformed_orders wh) (customer_totals wh) (procedure wh))))).

(** CREATE OR REPLACE PROCEDURE. *)
Definition insert_sales_orders_task (s : State) : job_result State :=
  let wh := snd s in
  Done (fst s,
        mkWarehouse (sales_orders wh) (transformed_orders wh) (customer_totals wh)
          (Some Sql.insert_sales_orders)).

(** CALL of the procedure with the five literal arguments. *)
Definition call_procedure_task (s : State) : job_result State :=
  let wh := snd s in
  match procedure wh with
  | None => Failed "Not found: Routine"
  | Some body =>
      job_bind (body Sql.call_arguments (sales_orders wh)) (fun sales =>
      Done (fst s,
            mkWarehouse (Some sales) (transformed_orders wh) (customer_totals wh)
              (procedure wh)))
  end.

(** The first query, its result replacing (WRITE_TRUNCATE) the transformed
    table. *)
Definition transform_bq_data (current_timestamp : Z) (s : State) : job_result State :=
  let wh := snd s in
  match sales_orders wh with
  | None => Failed "Not found: Table"
  | Some sales =>
      Done (fst s,
            mkWarehouse (sales_orders wh)
              (Some (Sql.transform_bq_qry current_timestamp sales))
              (customer_totals wh) (procedure wh))
  end.

(** The second query, its result replacing the amounts table. *)
Definition transform_bq_data_2 (s : State) : job_result State :=
  let wh := snd s in
  match sales_orders wh with
  | None => Failed "Not found: Table"
  | Some sales =>
      Done (fst s,
            mkWarehouse (sales_orders wh) (transformed_orders wh)
              (Some (Sql.transform_bq_qry_2 sales)) (procedure wh))
  end.

(** What each task of the DAG does. *)
Definition execute (cfg : Config) (current_timestamp : Z) (t : Dag.task) (s : State)
  : job_result State :=
  match t with
  | Dag.start_task | Dag.end_task => Done s
  | Dag.generate_sales_data => generate_sales_data cfg s
  | Dag.load_to_bigquery => load_to_bigquery cfg s
  | Dag.insert_sales_orders_task => insert_sales_orders_task s
  | Dag.call_procedure_task => call_procedure_task s
  | Dag.transform_bq_data => transform_bq_data current_timestamp s
  | Dag.transform_bq_data_2 => transform_bq_data_2 s
  end.

(** The tasks one after the other, up to the first that fails. *)
Fixpoint run_tasks (cfg : Config) (current_timestamp : Z) (todo : list Dag.task)
    (s : State) : list (Dag.task * Dag.outcome) * State :=
  match todo with
  | [] => ([], s)
  | t :: todo' =>
      match execute cfg current_timestamp t s with
      | Done s' =>
          let '(done, s'') := run_tasks cfg current_timestamp todo' s' in
          ((t, Dag.success) :: done, s'')
      | Failed _ => ([(t, Dag.failed)], s)
      end
  end.

(** One run of the DAG: its tasks in the only order the chain allows. *)
Definition dag_run (cfg : Config) (current_timestamp : Z) (s : State)
  : list (Dag.task * Dag.outcome) * State :=
  run_tasks cfg current_timestamp Dag.declared_order s.

End Jobs.

End Job.

(** An order whose values the frame and its text hold as they are: no
    carriage return in the name or the product, an id that an int64 column
    holds, an amount that is not negative and that a float holds to the
    hundredth, and a date of the calendar. *)
Definition representable (o : OrderRecord) : Prop :=
  Text.any_char (fun c => Ascii.eqb c Text.creturn) (customer_name o) = false
  /\ Text.any_char (fun c => Ascii.eqb c Text.creturn) (product o) = false
  /\ - 2 ^ 63 <= order_id o < 2 ^ 63
  /\ 0 <= order_amount o < 10 ^ 15
  /\ Date.MINORDINAL <= order_date o <= Date.MAXORDINAL.

(** Readings of the groups of the second query. *)
Module Grouping.

(** The rows of a customer, in table order. *)
Definition orders_of (name : string) (sales : list OrderRecord) : list OrderRecord :=
  List.filter (fun o => String.eqb (customer_name o) name) sales.

(** The rows the groups hold under a name. *)
Definition group (name : string) (groups : list (string * list OrderRecord))
  : list OrderRecord :=
  flat_map (fun g => if String.eqb (fst g) name then snd g else []) groups.

Definition total (groups : list (string * list OrderRecord)) : nat :=
  length (concat (map snd groups)).

(** [groups] are the groups of [sales]: the names ascend, no group is empty,
    each name has its rows, and no row is counted twice. *)
Definition grouped (sales : list OrderRecord)
    (groups : list (string * list OrderRecord)) : Prop :=
  Sorted.StronglySorted OrdersEx.String_as_OT.lt (map fst groups)
  /\ Forall (fun g => snd g <> []) groups
  /\ (forall name, group name groups = orders_of name sales)
  /\ total groups = length sales.

End Grouping.

(** * Properties *)

(** ** Text *)

#[local] Arguments String.append !s1 s2 : simpl nomatch.

Lemma append_nil_r (s : string) : s ++ "" = s.
Proof. induction s as [|c s IH]; simpl; [reflexivity | now rewrite IH]. Qed.

Lemma append_assoc (s t u : string) : (s ++ t) ++ u = s ++ (t ++ u).
Proof. induction s as [|c s IH]; simpl; [reflexivity | now rewrite IH]. Qed.

Lemma length_append (s t : string) :
  String.length (s ++ t) = (String.length s + String.length t)%nat.
Proof. induction s as [|c s IH]; simpl; [reflexivity | now rewrite IH]. Qed.

Lemma str_int_nonempty (z : Z) : Text.str_int z <> "".
Proof.
  unfold Text.str_int.
  destruct z as [|p|p]; simpl; try discriminate.
  unfold NilZero.string_of_uint.
  destruct (Pos.to_uint p); simpl; discriminate.
Qed.

(** ** Reading back what the writer wrote *)

Section RoundTrip.

Import Csv.

Lemma special_false (c : ascii) :
  special c = false ->
  Ascii.eqb c Text.newline = false /\ Ascii.eqb c Text.dquote = false
  /\ Ascii.eqb c Text.comma = false.
Proof.
  unfold special. intros Hc.
  repeat (apply orb_false_elim in Hc; destruct Hc as [Hc ?]). auto.
Qed.

(** An unquoted run of ordinary characters is copied to the field. *)
Lemma read_plain (p field : string) (record : list string) (rest : string) :
  Text.any_char special p = false ->
  read IN_FIELD field record (p ++ rest) = read IN_FIELD (field ++ p) record rest.
Proof.
  revert field. induction p as [|c p IH]; intros field Hp; simpl.
  - now rewrite append_nil_r.
  - simpl in Hp. apply orb_false_elim in Hp as [Hc Hp].
    destruct (special_false c Hc) as (-> & _ & ->).
    rewrite (IH _ Hp). unfold snoc. now rewrite append_assoc.
Qed.

(** Inside quotes every character is copied and a doubled quote gives one;
    the single quote that follows closes the field. *)
Lemma read_quoted_body (s field : string) (record : list string) (rest : string) :
  read IN_QUOTED_FIELD field record (double_quotes s ++ String Text.dquote rest)
  = read QUOTE_IN_QUOTED_FIELD (field ++ s) record rest.
Proof.
  revert field. induction s as [|c s IH]; intros field; simpl.
  - now rewrite append_nil_r.
  - destruct (Ascii.eqb c Text.dquote) eqn:Hc; simpl.
    + apply Ascii.eqb_eq in Hc. subst c. simpl.
      rewrite IH. unfold snoc. now rewrite append_assoc.
    + rewrite Hc, IH. unfold snoc. now rewrite append_assoc.
Qed.

Lemma after_field_comma (record : list string) (field rest : string) :
  after_field record field Text.comma rest
  = read START_FIELD "" (push record field) rest.
Proof. reflexivity. Qed.

Lemma after_field_newline (record : list string) (field rest : string) :
  after_field record field Text.newline rest
  = push record field :: read START_RECORD "" [] rest.
Proof. reflexivity. Qed.

Lemma join_cons (sep a b : string) (l : list string) :
  Text.join sep (a :: b :: l) = a ++ sep ++ Text.join sep (b :: l).
Proof. reflexivity. Qed.

Lemma append_char (c : ascii) (t : string) : String c "" ++ t = String c t.
Proof. reflexivity. Qed.

Lemma read_quoted (st : rstate) (f : string) (record : list string) (sep : ascii)
    (rest : string) :
  st = START_RECORD \/ st = START_FIELD ->
  sep = Text.newline \/ sep = Text.comma ->
  read st "" record (quoted f ++ String sep rest) = after_field record f sep rest.
Proof.
  intros Hst Hsep. unfold quoted. simpl.
  rewrite append_assoc. simpl.
  assert (Hbody :
    read IN_QUOTED_FIELD "" record (double_quotes f ++ String Text.dquote (String sep rest))
    = after_field record f sep rest).
  { rewrite read_quoted_body. simpl. unfold after_field.
    destruct Hsep as [-> | ->]; reflexivity. }
  destruct Hst as [-> | ->]; exact Hbody.
Qed.

Lemma read_unquoted (f : string) (record : list string) (sep : ascii) (rest : string) :
  Text.any_char special f = false ->
  sep = Text.newline \/ sep = Text.comma ->
  read START_FIELD "" record (f ++ String sep rest) = after_field record f sep rest.
Proof.
  intros Hf Hsep. destruct f as [|c f]; simpl.
  - unfold after_field. destruct Hsep as [-> | ->]; reflexivity.
  - simpl in Hf. apply orb_false_elim in Hf as [Hc Hf].
    destruct (special_false c Hc) as (-> & -> & ->).
    rewrite (read_plain f _ _ _ Hf). simpl. unfold after_field.
    destruct Hsep as [-> | ->]; reflexivity.
Qed.

Lemma read_field (f : string) (record : list string) (sep : ascii) (rest : string) :
  sep = Text.newline \/ sep = Text.comma ->
  read START_FIELD "" record (write_field f ++ String sep rest)
  = after_field record f sep rest.
Proof.
  intros Hsep. unfold write_field.
  destruct (Text.any_char special f) eqn:Hf.
  - apply read_quoted; auto.
  - now apply read_unquoted.
Qed.

(** At the start of a record the reader treats anything but a line end as
    the start of a field. *)
Lemma read_start_record (c : ascii) (s : string) :
  Ascii.eqb c Text.newline = false ->
  read START_RECORD "" [] (String c s) = read START_FIELD "" [] (String c s).
Proof. intros Hc. simpl. now rewrite Hc. Qed.

Lemma read_fields (f : string) (fs record : list string) (rest : string) :
  read START_FIELD "" record
    (Text.join "," (map write_field (f :: fs)) ++ String Text.newline rest)
  = (record ++ f :: fs)%list :: read START_RECORD "" [] rest.
Proof.
  revert f record. induction fs as [|g fs IH]; intros f record.
  - simpl. rewrite read_field by auto. reflexivity.
  - rewrite !map_cons, join_cons, <- !map_cons.
    rewrite !append_assoc, append_char.
    rewrite read_field by auto. rewrite after_field_comma.
    rewrite IH. unfold push. now rewrite <- app_assoc.
Qed.

Lemma write_field_head (f : string) (rest : string) :
  f <> "" ->
  exists c s, write_field f ++ rest = String c s /\ Ascii.eqb c Text.newline = false.
Proof.
  intros Hf. unfold write_field.
  destruct (Text.any_char special f) eqn:Hs.
  - unfold quoted. simpl. eauto.
  - destruct f as [|c f]; [congruence|]. simpl in *.
    apply orb_false_elim in Hs as [Hc _].
    destruct (special_false c Hc) as (Hn & _). eauto.
Qed.

(** One record is read back as the fields that were written. *)
Lemma read_writerow (fields : list string) (rest : string) :
  read START_RECORD "" [] (writerow fields ++ rest)
  = fields :: read START_RECORD "" [] rest.
Proof.
  destruct fields as [|f fs].
  - reflexivity.
  - destruct fs as [|g fs].
    + destruct f as [|c f].
      * reflexivity.
      * unfold writerow, lineterminator. rewrite append_assoc. simpl Text.join.
        simpl (String Text.newline "" ++ rest).
        destruct (write_field_head (String c f) (String Text.newline rest))
          as (c' & s' & Heq & Hc'); [discriminate|].
        rewrite Heq, (read_start_record _ _ Hc'), <- Heq.
        rewrite read_field by auto. reflexivity.
    + assert (Hrow : writerow (f :: g :: fs)
                     = Text.join "," (map write_field (f :: g :: fs)) ++ lineterminator).
      { destruct f; reflexivity. }
      rewrite Hrow. unfold lineterminator. rewrite append_assoc.
      simpl (String Text.newline "" ++ rest).
      assert (Hhead : exists c s,
        Text.join "," (map write_field (f :: g :: fs)) ++ String Text.newline rest
        = String c s /\ Ascii.eqb c Text.newline = false).
      { rewrite !map_cons, join_cons, <- !map_cons.
        rewrite append_assoc.
        destruct f as [|c f].
        - simpl. eauto.
        - apply write_field_head. discriminate. }
      destruct Hhead as (c' & s' & Heq & Hc').
      rewrite Heq, (read_start_record _ _ Hc'), <- Heq.
      apply read_fields.
Qed.

Lemma reader_writerows (records : list (list string)) :
  reader (Text.concat (map writerow records)) = records.
Proof.
  unfold reader. induction records as [|r records IH]; simpl.
  - reflexivity.
  - rewrite read_writerow. now rewrite IH.
Qed.

(** The text of a frame reads back as its column names followed by its rows. *)
Lemma reader_to_csv (df : Frame.DataFrame) :
  reader (to_csv df)
  = Frame.columns df :: map (map Frame.cell_str) (Frame.rows df).
Proof.
  unfold to_csv, reader. rewrite read_writerow.
  rewrite <- (map_map (map Frame.cell_str) writerow).
  f_equal. apply reader_writerows.
Qed.

End RoundTrip.

(** ** Computations that return *)

Section TaskFacts.

Context {Rand : Type} {sources : RandomSources Rand}.

Lemma returns_ret {A : Type} (a : A) (w : World Rand) (post : A -> World Rand -> Prop) :
  post a w -> returns (ret a) w post.
Proof. intros Hp. exists a, w. split; [reflexivity | exact Hp]. Qed.

Lemma returns_bind {A B : Type} (m : M Rand A) (k : A -> M Rand B) (w : World Rand)
    (post : B -> World Rand -> Prop) :
  returns m w (fun a w1 => returns (k a) w1 post) -> returns (bind m k) w post.
Proof.
  intros (a & w1 & Hm & b & w2 & Hk & Hp).
  exists b, w2. split; [|exact Hp]. unfold bind. now rewrite Hm.
Qed.

Lemma returns_weaken {A : Type} (m : M Rand A) (w : World Rand)
    (post post' : A -> World Rand -> Prop) :
  (forall a w', post a w' -> post' a w') -> returns m w post -> returns m w post'.
Proof. intros Himp (a & w' & Hm & Hp). exists a, w'. auto. Qed.

Lemma only_rng_refl (w : World Rand) : only_rng w w.
Proof. now repeat split. Qed.

Lemma only_rng_trans (w1 w2 w3 : World Rand) :
  only_rng w1 w2 -> only_rng w2 w3 -> only_rng w1 w3.
Proof.
  intros (Ha & Hb & Hc) (Ha' & Hb' & Hc'). repeat split; congruence.
Qed.

Lemma draw_returns {A : Type} (f : Rand -> A * Rand) (w : World Rand) :
  returns (draw f) w (fun a w' => drawn f a /\ only_rng w w').
Proof.
  unfold returns, draw. destruct (f (rng w)) as [a g] eqn:Hf.
  exists a, (mkWorld g (today w) (gcs w) (stdout w)).
  split; [reflexivity|]. split; [|now repeat split].
  exists (rng w). now rewrite Hf.
Qed.

(** A comprehension over a body that returns itself returns, with one
    element for each iteration. *)
Lemma comprehension_returns {A : Type} (m : M Rand A) (P : A -> Prop) (w0 : World Rand) :
  (forall w, only_rng w0 w -> returns m w (fun a w' => P a /\ only_rng w0 w')) ->
  forall (n : nat) (w : World Rand),
    only_rng w0 w ->
    returns (comprehension n m) w
      (fun l w' => length l = n /\ Forall P l /\ only_rng w0 w').
Proof.
  intros Hm. induction n as [|n IH]; intros w Hw; simpl.
  - apply returns_ret. auto.
  - apply returns_bind.
    eapply returns_weaken; [|exact (Hm w Hw)].
    intros a w1 [Ha Hw1]. apply returns_bind.
    eapply returns_weaken; [|exact (IH w1 Hw1)].
    intros l w2 (Hlen & Hall & Hw2).
    apply returns_ret. simpl. auto.
Qed.

Lemma name_returns (w0 w : World Rand) :
  only_rng w0 w ->
  returns name w (fun a w' => drawn fake_name a /\ only_rng w0 w').
Proof.
  intros Hw. eapply returns_weaken; [|apply draw_returns].
  intros a w' [Ha Hw']. eauto using only_rng_trans.
Qed.

Lemma word_returns (w0 w : World Rand) :
  only_rng w0 w ->
  returns word w (fun a w' => drawn fake_word a /\ only_rng w0 w').
Proof.
  intros Hw. eapply returns_weaken; [|apply draw_returns].
  intros a w' [Ha Hw']. eauto using only_rng_trans.
Qed.

Lemma amount_returns (w0 w : World Rand) :
  only_rng w0 w ->
  returns (x <- uniform (inject_Z 10) (inject_Z 1000) ;; ret (Float.round2 x)) w
    (fun h w' =>
       (exists x, drawn (random_uniform (inject_Z 10) (inject_Z 1000)) x
                  /\ h = Float.round2 x)
       /\ only_rng w0 w').
Proof.
  intros Hw. apply returns_bind.
  eapply returns_weaken; [|apply draw_returns].
  intros x w' [Hx Hw']. apply returns_ret. eauto using only_rng_trans.
Qed.

Lemma date_returns (w0 w : World Rand) :
  only_rng w0 w ->
  returns (date_between (Days (-30)) Today) w
    (fun d w' =>
       drawn (fake_date_between_dates (today w0 + -30) (today w0)) d
       /\ only_rng w0 w').
Proof.
  intros Hw.
  destruct (draw_returns (fake_date_between_dates (today w + -30) (today w)) w)
    as (d & w' & Heq & Hd & Hw').
  exists d, w'. split; [exact Heq|].
  destruct Hw as (Ht & Hrest). rewrite Ht in Hd. split; [exact Hd|].
  apply only_rng_trans with w; [now split | assumption].
Qed.

End TaskFacts.

(** ** The batch *)

Lemma py_range_length (lo hi : Z) : length (py_range lo hi) = Z.to_nat (hi - lo).
Proof. unfold py_range. now rewrite length_map, length_seq. Qed.

Lemma py_range_from_1 (n : Z) : py_range 1 (n + 1) = map Z.of_nat (seq 1 (Z.to_nat n)).
Proof.
  unfold py_range. replace (n + 1 - 1) with n by lia.
  rewrite <- seq_shift, map_map. apply map_ext. intros i. lia.
Qed.

(** Five lists of one length are the columns of a list of orders. *)
Lemma orders_exist (Pn Pw : string -> Prop) (Pa Pd : Z -> Prop) (n : nat) :
  forall (ids : list Z) (names : list string) (amounts dates : list Z)
         (words : list string),
    length ids = n -> length names = n -> length amounts = n ->
    length dates = n -> length words = n ->
    Forall Pn names -> Forall Pa amounts -> Forall Pd dates -> Forall Pw words ->
    exists orders : list OrderRecord,
      map order_id orders = ids
      /\ map customer_name orders = names
      /\ map order_amount orders = amounts
      /\ map order_date orders = dates
      /\ map product orders = words
      /\ Forall (fun o => Pn (customer_name o) /\ Pa (order_amount o)
                          /\ Pd (order_date o) /\ Pw (product o)) orders.
Proof.
  induction n as [|n IH]; intros ids names amounts dates words Hi Hn Ha Hd Hw.
  - destruct ids, names, amounts, dates, words; try discriminate.
    intros _ _ _ _. exists []. repeat split; constructor.
  - destruct ids as [|i ids], names as [|nm names], amounts as [|a amounts],
      dates as [|d dates], words as [|wd words]; try discriminate.
    intros Fn Fa Fd Fw.
    apply Forall_cons_iff in Fn as [Hnm Fn], Fa as [Ham Fa], Fd as [Hdt Fd], Fw as [Hwd Fw].
    simpl in Hi, Hn, Ha, Hd, Hw.
    destruct (IH ids names amounts dates words) as (orders & E1 & E2 & E3 & E4 & E5 & F);
      try lia; try assumption.
    exists (mkOrder i nm a d wd :: orders). simpl.
    rewrite E1, E2, E3, E4, E5. repeat split; try reflexivity.
    constructor; simpl; auto.
Qed.

Section BatchFacts.

Context {Rand : Type} {sources : RandomSources Rand}.

(** The dict display returns for every count; its lists are the columns of
    [range_len num_orders] orders numbered from 1, each field drawn from its
    source, and nothing but the random state has changed. *)
Lemma build_data_returns (num_orders : Z) (w : World Rand) :
  returns (build_data num_orders) w
    (fun data w' =>
       exists orders : list OrderRecord,
         data = data_of orders
         /\ length orders = range_len num_orders
         /\ map order_id orders = map Z.of_nat (seq 1 (range_len num_orders))
         /\ Forall (order_drawn (today w)) orders
         /\ only_rng w w').
Proof.
  unfold build_data. apply returns_bind.
  eapply returns_weaken;
    [|apply (comprehension_returns name _ w (name_returns w)), only_rng_refl].
  intros names w1 (Ln & Fn & Hw1). apply returns_bind.
  eapply returns_weaken;
    [|apply (comprehension_returns _ _ w (amount_returns w)), Hw1].
  intros amounts w2 (La & Fa & Hw2). apply returns_bind.
  eapply returns_weaken;
    [|apply (comprehension_returns _ _ w (date_returns w)), Hw2].
  intros dates w3 (Ld & Fd & Hw3). apply returns_bind.
  eapply returns_weaken;
    [|apply (comprehension_returns word _ w (word_returns w)), Hw3].
  intros words w4 (Lw & Fw & Hw4). apply returns_ret.
  assert (Li : length (py_range 1 (num_orders + 1)) = range_len num_orders).
  { rewrite py_range_length. unfold range_len. f_equal. lia. }
  destruct (orders_exist _ _ _ _ _ _ _ _ _ _ Li Ln La Ld Lw Fn Fa Fd Fw)
    as (orders & E1 & E2 & E3 & E4 & E5 & F).
  exists orders. repeat split; try apply Hw4.
  - unfold data_of. rewrite <- E1, <- E2, <- E3, <- E4, <- E5.
    now rewrite !map_map.
  - rewrite <- Ln, <- E2. now rewrite length_map.
  - rewrite E1. apply py_range_from_1.
  - exact F.
Qed.

End BatchFacts.

(** ** The frame of a batch and its text *)

Lemma pd_DataFrame_data_of (orders : list OrderRecord) :
  Frame.pd_DataFrame (data_of orders) = Ok (data_of orders).
Proof.
  unfold Frame.pd_DataFrame, data_of, Frame.same_length. simpl.
  rewrite !length_map, Nat.eqb_refl. reflexivity.
Qed.

Lemma nth_map_cell (f : OrderRecord -> Frame.cell) (orders : list OrderRecord)
    (i : nat) (o : OrderRecord) :
  (i < length orders)%nat ->
  nth i (map f orders) Frame.CNone = f (nth i orders o).
Proof.
  intros Hi. rewrite (nth_indep _ Frame.CNone (f o)) by now rewrite length_map.
  apply map_nth.
Qed.

Lemma rows_data_of (orders : list OrderRecord) :
  Frame.rows (data_of orders) = map cells_of orders.
Proof.
  destruct orders as [|o0 orders']; [reflexivity|].
  remember (o0 :: orders') as orders eqn:Eo. clear Eo.
  unfold Frame.rows. change (Frame.nrows (data_of orders)) with
    (length (map (fun o => Frame.CInt (order_id o)) orders)).
  rewrite length_map.
  apply (nth_ext _ _ (Frame.row (data_of orders) O) (cells_of o0)).
  - now rewrite !length_map, length_seq.
  - intros i Hi. rewrite length_map, length_seq in Hi.
    rewrite (map_nth (Frame.row (data_of orders))), seq_nth by assumption.
    rewrite (map_nth cells_of). simpl (0 + i)%nat.
    unfold Frame.row, data_of, cells_of. simpl map.
    now rewrite !(nth_map_cell _ orders i o0) by assumption.
Qed.

Lemma reader_data_of (orders : list OrderRecord) :
  Csv.reader (Csv.to_csv (data_of orders)) = header :: map fields_of orders.
Proof.
  rewrite reader_to_csv, rows_data_of, map_map. reflexivity.
Qed.

Section CsvFacts.

Context {Rand : Type} {sources : RandomSources Rand}.

(** The CSV text is produced for every count: it is the text of a batch of
    [range_len num_orders] orders, and reads back as the header and one
    record of five fields for each order. *)
Lemma build_csv_returns (num_orders : Z) (w : World Rand) :
  returns (build_csv num_orders) w
    (fun csv w' =>
       exists orders : list OrderRecord,
         build_data num_orders w = Ok (data_of orders, w')
         /\ csv = Csv.to_csv (data_of orders)
         /\ Csv.reader csv = header :: map fields_of orders
         /\ length orders = range_len num_orders
         /\ map order_id orders = map Z.of_nat (seq 1 (range_len num_orders))
         /\ Forall (order_drawn (today w)) orders
         /\ only_rng w w').
Proof.
  destruct (build_data_returns num_orders w)
    as (data & w' & Hrun & orders & -> & Hlen & Hids & Hdrawn & Hw').
  exists (Csv.to_csv (data_of orders)), w'. split.
  - unfold build_csv, bind. rewrite Hrun. unfold lift.
    now rewrite pd_DataFrame_data_of.
  - exists orders. repeat split; try assumption; try apply Hw'.
    apply reader_data_of.
Qed.

End CsvFacts.

Lemma to_csv_data_of (orders : list OrderRecord) :
  Csv.to_csv (data_of orders)
  = Csv.writerow header ++ Text.concat (map Csv.writerow (map fields_of orders)).
Proof.
  unfold Csv.to_csv. rewrite rows_data_of, map_map, map_map. reflexivity.
Qed.

Lemma writerow_header :
  Csv.writerow header
  = "order_id,customer_name,order_amount,order_date,product"
    ++ String Text.newline "".
Proof. reflexivity. Qed.

(** ** Dates as text *)

Lemma month_day_range (leapyear : bool) (n : Z) :
  0 <= n < 365 ->
  1 <= fst (Date.month_day leapyear n) <= 12
  /\ 1 <= snd (Date.month_day leapyear n) <= 31.
Proof.
  intros Hn.
  assert (Hall : forallb (fun i =>
            let md := Date.month_day leapyear (Z.of_nat i) in
            (1 <=? fst md) && (fst md <=? 12) && (1 <=? snd md) && (snd md <=? 31))
          (seq 0 365) = true) by (destruct leapyear; vm_compute; reflexivity).
  rewrite forallb_forall in Hall.
  specialize (Hall (Z.to_nat n)). rewrite Z2Nat.id in Hall by lia.
  lapply Hall; [|apply in_seq; lia].
  cbv zeta. rewrite !andb_true_iff, !Z.leb_le. tauto.
Qed.

(** Every ordinal of a representable date has a year of at most four
    digits and a month and a day of the calendar. *)
Lemma ord2ymd_range (ordinal : Z) :
  Date.MINORDINAL <= ordinal <= Date.MAXORDINAL ->
  let '(y, m, d) := Date.ord2ymd ordinal in
  1 <= y <= 9999 /\ 1 <= m <= 12 /\ 1 <= d <= 31.
Proof.
  unfold Date.MINORDINAL, Date.MAXORDINAL, Date.ord2ymd,
    Date.DI400Y, Date.DI100Y, Date.DI4Y.
  intros Hord. cbv zeta.
  set (n0 := ordinal - 1).
  set (n400 := n0 / 146097). set (r400 := n0 mod 146097).
  set (n100 := r400 / 36524). set (r100 := r400 mod 36524).
  set (n4 := r100 / 1461). set (r4 := r100 mod 1461).
  set (n1 := r4 / 365). set (r1 := r4 mod 365).
  assert (Hr1 : 0 <= r1 < 365) by (apply Z.mod_pos_bound; lia).
  assert (Hy : (n1 =? 4) || (n100 =? 4) = false ->
               1 <= n400 * 400 + 1 + n100 * 100 + n4 * 4 + n1 <= 9999).
  { intros Hc. apply orb_false_elim in Hc as [H1 H100].
    apply Z.eqb_neq in H1, H100.
    subst n1 r1 n4 r4 n100 r100 n400 r400 n0.
    Z.div_mod_to_equations. lia. }
  destruct ((n1 =? 4) || (n100 =? 4)) eqn:Hc.
  - apply orb_prop in Hc.
    assert (1 <= n400 * 400 + 1 + n100 * 100 + n4 * 4 + n1 - 1 <= 9999).
    { subst n1 r1 n4 r4 n100 r100 n400 r400 n0.
      destruct Hc as [Hc | Hc]; apply Z.eqb_eq in Hc;
        Z.div_mod_to_equations; lia. }
    lia.
  - pose proof (month_day_range
      ((n1 =? 3) && (negb (n4 =? 24) || (n100 =? 3))) r1 Hr1) as Hmd.
    destruct (Date.month_day _ r1) as [m d]. simpl in Hmd.
    specialize (Hy eq_refl). lia.
Qed.

Lemma zero_pad_digits (w : nat) (bound : Z) (z : Z) :
  forallb (fun i => Text.is_digits w (Text.zero_pad w (Z.of_nat i)))
    (seq 0 (Z.to_nat bound)) = true ->
  0 <= z < bound ->
  Text.is_digits w (Text.zero_pad w z) = true.
Proof.
  intros Hall Hz. rewrite forallb_forall in Hall.
  specialize (Hall (Z.to_nat z)). rewrite Z2Nat.id in Hall by lia.
  apply Hall, in_seq. lia.
Qed.

Lemma zero_pad_4 (z : Z) : 0 <= z <= 9999 -> Text.is_digits 4 (Text.zero_pad 4 z) = true.
Proof.
  intros Hz. apply (zero_pad_digits 4 10000); [vm_compute; reflexivity | lia].
Qed.

Lemma zero_pad_2 (z : Z) : 0 <= z <= 99 -> Text.is_digits 2 (Text.zero_pad 2 z) = true.
Proof.
  intros Hz. apply (zero_pad_digits 2 100); [vm_compute; reflexivity | lia].
Qed.

Lemma iso_shape (y m d : string) :
  Text.is_digits 4 y = true -> Text.is_digits 2 m = true -> Text.is_digits 2 d = true ->
  Date.is_iso_date (y ++ "-" ++ m ++ "-" ++ d) = true.
Proof.
  unfold Text.is_digits. intros Hy Hm Hd.
  apply andb_prop in Hy as [Ly Dy], Hm as [Lm Dm], Hd as [Ld Dd].
  destruct y as [|y1 [|y2 [|y3 [|y4 [|]]]]]; try discriminate Ly.
  destruct m as [|m1 [|m2 [|]]]; try discriminate Lm.
  destruct d as [|d1 [|d2 [|]]]; try discriminate Ld.
  simpl in *. rewrite !andb_true_r in *.
  repeat match goal with
         | Hx : _ && _ = true |- _ => apply andb_prop in Hx as [? ?]
         end.
  repeat match goal with
         | Hx : Text.is_digit _ = true |- _ => rewrite Hx; clear Hx
         end.
  reflexivity.
Qed.

(** The ISO text of a representable date has the shape YYYY-MM-DD. *)
Lemma isoformat_shape (ordinal : Z) :
  Date.MINORDINAL <= ordinal <= Date.MAXORDINAL ->
  Date.is_iso_date (Date.isoformat ordinal) = true.
Proof.
  intros Hord. pose proof (ord2ymd_range ordinal Hord) as Hr.
  unfold Date.isoformat. destruct (Date.ord2ymd ordinal) as [[y m] d].
  apply iso_shape; [apply zero_pad_4 | apply zero_pad_2 | apply zero_pad_2]; lia.
Qed.

(** ** Rounding and the text of an amount *)

Lemma round_half_even_nearest (x : Q) :
  (- (1 # 2) <= inject_Z (Float.round_half_even x) - x <= 1 # 2)%Q.
Proof.
  unfold Float.round_half_even.
  pose proof (Qfloor_le x) as Hlo. pose proof (Qlt_floor x) as Hhi.
  rewrite inject_Z_plus in Hhi. change (inject_Z 1) with 1%Q in Hhi.
  destruct (Qcompare (x - inject_Z (Qfloor x)) (1 # 2)) eqn:Hc.
  - apply Qeq_alt in Hc.
    destruct (Z.even (Qfloor x));
      [|rewrite inject_Z_plus; change (inject_Z 1) with 1%Q]; lra.
  - apply Qlt_alt in Hc. lra.
  - apply Qgt_alt in Hc. rewrite inject_Z_plus. change (inject_Z 1) with 1%Q. lra.
Qed.

Lemma round_half_even_bounds (x : Q) (lo hi : Z) :
  (inject_Z lo <= x <= inject_Z hi)%Q -> lo <= Float.round_half_even x <= hi.
Proof.
  intros [Hlo Hhi].
  pose proof (round_half_even_nearest x) as [Hn1 Hn2].
  split.
  - apply Z.lt_pred_le. rewrite Zlt_Qlt. unfold Z.pred. rewrite inject_Z_plus.
    change (inject_Z (-1)) with (-1 # 1)%Q. lra.
  - apply Z.lt_succ_r. rewrite Zlt_Qlt. unfold Z.succ. rewrite inject_Z_plus.
    change (inject_Z 1) with 1%Q. lra.
Qed.

(** A sample between 10 and 1000 rounds to between 10.00 and 1000.00. *)
Lemma round2_bounds (x : Q) :
  (inject_Z 10 <= x <= inject_Z 1000)%Q -> 1000 <= Float.round2 x <= 100000.
Proof.
  intros [Hlo Hhi]. unfold Float.round2. apply round_half_even_bounds.
  change (inject_Z 10) with (10 # 1)%Q in Hlo.
  change (inject_Z 1000) with (1000 # 1)%Q in Hhi.
  change (inject_Z 100) with (100 # 1)%Q.
  change (inject_Z 1000) with (1000 # 1)%Q.
  change (inject_Z 100000) with (100000 # 1)%Q. lra.
Qed.

(** The rounded amount is within half a hundredth of the sample. *)
Lemma round2_nearest (x : Q) :
  (- (1 # 200) <= (Float.round2 x # 100) - x <= 1 # 200)%Q.
Proof.
  pose proof (round_half_even_nearest (x * inject_Z 100)) as Hn.
  fold (Float.round2 x) in Hn. change (inject_Z 100) with (100 # 1)%Q in Hn.
  assert (Hq : (Float.round2 x # 100 == inject_Z (Float.round2 x) * (1 # 100))%Q).
  { unfold Qeq, inject_Z. simpl. lia. }
  rewrite Hq. lra.
Qed.

Lemma decimals_from_no_dot (k : nat) (t : string) :
  Text.any_char Float.is_dot t = false ->
  Float.decimals_from (Some k) t = Some (k + String.length t)%nat.
Proof.
  revert k. induction t as [|c t IH]; intros k Ht; simpl.
  - f_equal. lia.
  - simpl in Ht. apply orb_false_elim in Ht as [Hc Ht].
    rewrite Hc. simpl. rewrite (IH _ Ht). f_equal. lia.
Qed.

Lemma decimals_from_last_dot (seen : option nat) (s t : string) :
  Text.any_char Float.is_dot t = false ->
  Float.decimals_from seen (s ++ "." ++ t) = Some (String.length t).
Proof.
  intros Ht. revert seen. induction s as [|c s IH]; intros seen; simpl.
  - now rewrite decimals_from_no_dot.
  - destruct (Float.is_dot c); apply IH.
Qed.

Lemma frac_text_shape (frac : Z) :
  0 <= frac < 100 ->
  Text.any_char Float.is_dot (Float.frac_text frac) = false
  /\ String.length (Float.frac_text frac)
     = (if frac mod 10 =? 0 then 1%nat else 2%nat).
Proof.
  intros Hf.
  assert (Hall : forallb (fun i =>
            let f := Z.of_nat i in
            negb (Text.any_char Float.is_dot (Float.frac_text f))
            && Nat.eqb (String.length (Float.frac_text f))
                       (if f mod 10 =? 0 then 1%nat else 2%nat))
          (seq 0 100) = true) by (vm_compute; reflexivity).
  rewrite forallb_forall in Hall.
  specialize (Hall (Z.to_nat frac)). rewrite Z2Nat.id in Hall by lia.
  lapply Hall; [|apply in_seq; lia].
  cbv zeta. rewrite andb_true_iff, negb_true_iff, Nat.eqb_eq. tauto.
Qed.

(** An amount is written with one decimal when its hundredths digit is
    zero and with two otherwise. *)
Lemma repr_decimal_places (h : Z) :
  Float.decimal_places (Float.repr h)
  = Some (if (Z.abs h mod 100) mod 10 =? 0 then 1%nat else 2%nat).
Proof.
  unfold Float.decimal_places, Float.repr. cbv zeta.
  destruct (frac_text_shape (Z.abs h mod 100)) as [Hdot Hlen];
    [apply Z.mod_pos_bound; lia|].
  rewrite <- append_assoc, decimals_from_last_dot by exact Hdot.
  now rewrite Hlen.
Qed.

Lemma repr_nonempty (h : Z) : Float.repr h <> "".
Proof.
  intros Heq. pose proof (repr_decimal_places h) as Hd.
  rewrite Heq in Hd. discriminate Hd.
Qed.

Lemma repr_decimal_places_mod (h : Z) :
  Float.decimal_places (Float.repr h)
  = Some (if h mod 10 =? 0 then 1%nat else 2%nat).
Proof.
  rewrite repr_decimal_places.
  replace ((Z.abs h mod 100) mod 10 =? 0) with (h mod 10 =? 0); [reflexivity|].
  destruct (Z.eqb_spec (h mod 10) 0) as [Hh | Hh];
    destruct (Z.eqb_spec ((Z.abs h mod 100) mod 10) 0) as [Ha | Ha];
    try reflexivity; exfalso; revert Hh Ha;
    Z.div_mod_to_equations; lia.
Qed.

(** ** Fields read back *)

Lemma integer_str_int (z : Z) : Decode.integer (Text.str_int z) = Some z.
Proof.
  unfold Decode.integer, Text.str_int.
  rewrite NilZero.isi.
  - simpl. now rewrite DecimalZ.of_to.
  - destruct z; simpl; try discriminate.
    intros Heq. injection Heq. apply DecimalPos.Unsigned.to_uint_nonnil.
  - destruct z; simpl; try discriminate.
    intros Heq. injection Heq. apply DecimalPos.Unsigned.to_uint_nonnil.
Qed.

Lemma unsigned_str_int (z : Z) : 0 <= z -> Decode.unsigned (Text.str_int z) = Some z.
Proof.
  intros Hz. unfold Decode.unsigned, Text.str_int.
  destruct z as [|p|p]; [reflexivity| |lia].
  simpl. rewrite NilZero.usu by apply DecimalPos.Unsigned.to_uint_nonnil.
  simpl. f_equal. exact (DecimalZ.of_to (Z.pos p)).
Qed.

Lemma unsigned_zero_pad (w : nat) (bound z : Z) :
  forallb (fun i => match Decode.unsigned (Text.zero_pad w (Z.of_nat i)) with
                    | Some v => v =? Z.of_nat i
                    | None => false
                    end) (seq 0 (Z.to_nat bound)) = true ->
  0 <= z < bound ->
  Decode.unsigned (Text.zero_pad w z) = Some z.
Proof.
  intros Hall Hz. rewrite forallb_forall in Hall.
  specialize (Hall (Z.to_nat z)). rewrite Z2Nat.id in Hall by lia.
  lapply Hall; [|apply in_seq; lia].
  destruct (Decode.unsigned _) as [v|]; [|discriminate].
  intros Hv. apply Z.eqb_eq in Hv. now subst.
Qed.

Lemma unsigned_zero_pad_4 (z : Z) :
  0 <= z <= 9999 -> Decode.unsigned (Text.zero_pad 4 z) = Some z.
Proof.
  intros Hz. apply (unsigned_zero_pad 4 10000); [vm_compute; reflexivity | lia].
Qed.

Lemma unsigned_zero_pad_2 (z : Z) :
  0 <= z <= 99 -> Decode.unsigned (Text.zero_pad 2 z) = Some z.
Proof.
  intros Hz. apply (unsigned_zero_pad 2 100); [vm_compute; reflexivity | lia].
Qed.

Lemma iso_parts (y m d : string) :
  Text.is_digits 4 y = true -> Text.is_digits 2 m = true -> Text.is_digits 2 d = true ->
  let s := y ++ "-" ++ m ++ "-" ++ d in
  substring 0 4 s = y /\ substring 5 2 s = m /\ substring 8 2 s = d.
Proof.
  unfold Text.is_digits. intros Hy Hm Hd.
  apply andb_prop in Hy as [Ly _], Hm as [Lm _], Hd as [Ld _].
  destruct y as [|y1 [|y2 [|y3 [|y4 [|]]]]]; try discriminate Ly.
  destruct m as [|m1 [|m2 [|]]]; try discriminate Lm.
  destruct d as [|d1 [|d2 [|]]]; try discriminate Ld.
  repeat split.
Qed.

(** Month and day found from the day of the year lead back to it. *)
Lemma month_day_inverse (leap : bool) (n : Z) :
  0 <= n < 365 ->
  let '(m, d) := Date.month_day leap n in
  1 <= m <= 12 /\ 1 <= d <= Decode.month_length leap m
  /\ Decode.days_before leap m + d = n + 1.
Proof.
  intros Hn.
  assert (Hall : forallb (fun i =>
            let '(m, d) := Date.month_day leap (Z.of_nat i) in
            (1 <=? m) && (m <=? 12) && (1 <=? d) && (d <=? Decode.month_length leap m)
            && (Decode.days_before leap m + d =? Z.of_nat i + 1))
          (seq 0 365) = true) by (destruct leap; vm_compute; reflexivity).
  rewrite forallb_forall in Hall.
  specialize (Hall (Z.to_nat n)). rewrite Z2Nat.id in Hall by lia.
  lapply Hall; [|apply in_seq; lia].
  destruct (Date.month_day leap n) as [m d].
  rewrite !andb_true_iff, !Z.leb_le, Z.eqb_eq. tauto.
Qed.

(** Year, month and day of an ordinal name a day of the calendar, whose
    ordinal it is. *)
Lemma ymd2ord_ord2ymd (n : Z) :
  Date.MINORDINAL <= n <= Date.MAXORDINAL ->
  let '(y, m, d) := Date.ord2ymd n in
  1 <= m <= 12 /\ 1 <= d <= Decode.days_in_month y m /\ Decode.ymd2ord y m d = n.
Proof.
  unfold Date.MINORDINAL, Date.MAXORDINAL, Date.ord2ymd,
    Date.DI400Y, Date.DI100Y, Date.DI4Y.
  intros Hord. cbv zeta.
  set (n0 := n - 1).
  set (n400 := n0 / 146097). set (r400 := n0 mod 146097).
  set (n100 := r400 / 36524). set (r100 := r400 mod 36524).
  set (n4 := r100 / 1461). set (r4 := r100 mod 1461).
  set (n1 := r4 / 365). set (r1 := r4 mod 365).
  assert (Hn0 : n = 146097 * n400 + 36524 * n100 + 1461 * n4 + 365 * n1 + r1 + 1
                /\ 0 <= n400 /\ 0 <= n100 /\ 0 <= n4 /\ 0 <= n1 /\ 0 <= r1 < 365
                /\ 36524 * n100 + 1461 * n4 + 365 * n1 + r1 < 146097
                /\ 1461 * n4 + 365 * n1 + r1 < 36524
                /\ 365 * n1 + r1 < 1461).
  { subst n1 r1 n4 r4 n100 r100 n400 r400 n0. Z.div_mod_to_equations. lia. }
  destruct Hn0 as (Hn0 & H400 & H100 & H4 & H1 & Hr1 & Hb400 & Hb100 & Hb4).
  clearbody n400 n100 n4 n1 r1 r400 r100 r4. clear n0 r400 r100 r4.
  set (Y := n400 * 400 + 1 + n100 * 100 + n4 * 4 + n1).
  assert (Hdby : Y - 1 = 400 * n400 + 100 * n100 + 4 * n4 + n1 ->
                 n100 <= 3 -> n1 <= 3 ->
                 Decode.days_before_year Y
                 = 146097 * n400 + 36524 * n100 + 1461 * n4 + 365 * n1).
  { intros Hy Hx Hz. unfold Decode.days_before_year. cbv zeta. rewrite Hy.
    Z.div_mod_to_equations. lia. }
  destruct ((n1 =? 4) || (n100 =? 4)) eqn:Hc.
  - apply orb_prop in Hc.
    split; [lia|].
    assert (Hleap : Decode.is_leap (Y - 1) = true).
    { unfold Decode.is_leap, Y.
      destruct Hc as [Hc|Hc]; apply Z.eqb_eq in Hc.
      - assert (Hm4 : (n400 * 400 + 1 + n100 * 100 + n4 * 4 + n1 - 1) mod 4 = 0)
          by (Z.div_mod_to_equations; lia).
        assert (Hm100 : (n400 * 400 + 1 + n100 * 100 + n4 * 4 + n1 - 1) mod 100 <> 0)
          by (Z.div_mod_to_equations; lia).
        rewrite Hm4. apply Z.eqb_neq in Hm100. rewrite Hm100. reflexivity.
      - assert (Hm4 : (n400 * 400 + 1 + n100 * 100 + n4 * 4 + n1 - 1) mod 4 = 0)
          by (Z.div_mod_to_equations; lia).
        assert (Hm400 : (n400 * 400 + 1 + n100 * 100 + n4 * 4 + n1 - 1) mod 400 = 0)
          by (Z.div_mod_to_equations; lia).
        rewrite Hm4, Hm400. simpl. apply orb_true_r. }
    unfold Decode.days_in_month, Decode.ymd2ord, Decode.days_before_month.
    rewrite Hleap. split; [vm_compute; split; discriminate|].
    change (Decode.days_before true 12) with 335.
    destruct Hc as [Hc|Hc]; apply Z.eqb_eq in Hc;
      unfold Decode.days_before_year, Y; cbv zeta; Z.div_mod_to_equations; lia.
  - apply orb_false_elim in Hc as [Hc1 Hc100].
    apply Z.eqb_neq in Hc1, Hc100.
    assert (Hn1 : n1 <= 3) by lia. assert (Hn100 : n100 <= 3) by lia.
    assert (Hleap : Decode.is_leap Y = (n1 =? 3) && (negb (n4 =? 24) || (n100 =? 3))).
    { unfold Decode.is_leap, Y.
      destruct (Z.eqb_spec n1 3) as [E1|E1];
        destruct (Z.eqb_spec n4 24) as [E4|E4];
        destruct (Z.eqb_spec n100 3) as [E100|E100]; simpl;
        repeat match goal with
        | |- context [?a mod ?b =? 0] =>
            destruct (Z.eqb_spec (a mod b) 0)
        end; simpl; try reflexivity; exfalso;
        Z.div_mod_to_equations; lia. }
    rewrite <- Hleap.
    pose proof (month_day_inverse (Decode.is_leap Y) r1 Hr1) as Hmd.
    destruct (Date.month_day (Decode.is_leap Y) r1) as [m d].
    destruct Hmd as (Hm & Hd & Hsum).
    split; [exact Hm|]. split; [exact Hd|].
    unfold Decode.ymd2ord, Decode.days_before_month.
    rewrite Hdby by (unfold Y; lia). lia.
Qed.

Lemma date_isoformat (n : Z) :
  Date.MINORDINAL <= n <= Date.MAXORDINAL ->
  Decode.date (Date.isoformat n) = Some n.
Proof.
  intros Hn. unfold Decode.date.
  rewrite (isoformat_shape n Hn).
  pose proof (ord2ymd_range n Hn) as Hr. pose proof (ymd2ord_ord2ymd n Hn) as Hi.
  unfold Date.isoformat. destruct (Date.ord2ymd n) as [[y m] d].
  destruct Hr as (Hy & Hm & Hd). destruct Hi as (_ & Hdm & Hord).
  destruct (iso_parts (Text.zero_pad 4 y) (Text.zero_pad 2 m) (Text.zero_pad 2 d))
    as (-> & -> & ->);
    [apply zero_pad_4; lia | apply zero_pad_2; lia | apply zero_pad_2; lia |].
  rewrite unsigned_zero_pad_4, !unsigned_zero_pad_2 by lia.
  replace ((1 <=? y) && (1 <=? m) && (m <=? 12) && (1 <=? d)
           && (d <=? Decode.days_in_month y m)) with true.
  - now rewrite Hord.
  - symmetry. rewrite !andb_true_iff, !Z.leb_le. lia.
Qed.

Lemma digit_not_dot (c : ascii) : Text.is_digit c = true -> Float.is_dot c = false.
Proof. destruct c as [[] [] [] [] [] [] [] []]; (reflexivity || discriminate). Qed.

Lemma string_of_uint_digits (d : Decimal.uint) :
  Text.all_chars Text.is_digit (NilEmpty.string_of_uint d) = true.
Proof. induction d; simpl; auto. Qed.

Lemma str_int_digits (z : Z) :
  0 <= z -> Text.all_chars Text.is_digit (Text.str_int z) = true.
Proof.
  intros Hz. unfold Text.str_int.
  destruct z as [|p|p]; [reflexivity| |lia].
  simpl. unfold NilZero.string_of_uint.
  destruct (Pos.to_uint p); try apply string_of_uint_digits; reflexivity.
Qed.

Lemma split_dot_append (p q : string) :
  Text.all_chars Text.is_digit p = true ->
  Decode.split_dot (p ++ String "." q) = Some (p, q).
Proof.
  induction p as [|c p IH]; intros Hp; simpl.
  - reflexivity.
  - simpl in Hp. apply andb_prop in Hp as [Hc Hp].
    rewrite (digit_not_dot c Hc), (IH Hp). reflexivity.
Qed.

Lemma frac_text_value (f : Z) :
  0 <= f < 100 ->
  forall i : Z,
    match Decode.unsigned (Float.frac_text f), String.length (Float.frac_text f) with
    | Some v, 1%nat => Some (100 * i + 10 * v)
    | Some v, 2%nat => Some (100 * i + v)
    | _, _ => None
    end = Some (100 * i + f).
Proof.
  intros Hf.
  assert (Hall : forallb (fun k =>
            let t := Float.frac_text (Z.of_nat k) in
            match Decode.unsigned t, String.length t with
            | Some v, 1%nat => 10 * v =? Z.of_nat k
            | Some v, 2%nat => v =? Z.of_nat k
            | _, _ => false
            end) (seq 0 100) = true) by (vm_compute; reflexivity).
  rewrite forallb_forall in Hall.
  specialize (Hall (Z.to_nat f)). rewrite Z2Nat.id in Hall by lia.
  lapply Hall; [|apply in_seq; lia]. cbv zeta.
  intros Hv i.
  destruct (Decode.unsigned (Float.frac_text f)) as [v|]; [|discriminate].
  destruct (String.length (Float.frac_text f)) as [|[|[|]]]; try discriminate;
    apply Z.eqb_eq in Hv; f_equal; lia.
Qed.

Lemma hundredths_text (a : Z) :
  0 <= a ->
  Decode.hundredths
    (Text.str_int (a / 100) ++ String "." (Float.frac_text (a mod 100)))
  = Some a.
Proof.
  intros Ha.
  assert (Hip : 0 <= a / 100) by (apply Z.div_pos; lia).
  pose proof (frac_text_value (a mod 100)) as Hfv.
  unfold Decode.hundredths.
  rewrite split_dot_append by now apply str_int_digits.
  rewrite unsigned_str_int by exact Hip.
  specialize (Hfv ltac:(apply Z.mod_pos_bound; lia) (a / 100)).
  destruct (Decode.unsigned (Float.frac_text (a mod 100))) as [v|];
    [|discriminate Hfv].
  rewrite Hfv. f_equal. pose proof (Z.div_mod a 100). lia.
Qed.

(** The text of an amount reads back as the amount. *)
Lemma float_repr (h : Z) : Decode.float (Float.repr h) = Some h.
Proof.
  unfold Float.repr. cbv zeta.
  change ("." ++ Float.frac_text (Z.abs h mod 100))
    with (String "." (Float.frac_text (Z.abs h mod 100))).
  pose proof (hundredths_text (Z.abs h) (Z.abs_nonneg h)) as Hbody.
  destruct (Z.ltb_spec h 0) as [Hneg|Hpos].
  - change ("-" ++ ?t) with (String "-" t).
    unfold Decode.float. rewrite Hbody. simpl. f_equal. lia.
  - simpl ("" ++ _). rewrite Z.abs_eq in * by lia.
    assert (Hip : 0 <= h / 100) by (apply Z.div_pos; lia).
    unfold Decode.float.
    destruct (Text.str_int (h / 100)) as [|c t] eqn:Hs.
    + exfalso. now apply (str_int_nonempty (h / 100)).
    + pose proof (str_int_digits (h / 100) Hip) as Hd. rewrite Hs in Hd.
      simpl in Hd. apply andb_prop in Hd as [Hc _].
      simpl ((String c t) ++ _) in *.
      destruct c as [[] [] [] [] [] [] [] []]; try discriminate Hc; exact Hbody.
Qed.

Lemma isoformat_nonempty (d : Z) : Date.isoformat d <> "".
Proof.
  unfold Date.isoformat. destruct (Date.ord2ymd d) as [[y m] dd].
  intros Heq. apply (f_equal String.length) in Heq.
  rewrite !length_append in Heq. simpl in Heq. lia.
Qed.

(** The record of an order, field by field: the name and the product are
    fields as they are, and the other three fields read back as the id, the
    amount and the date. *)
Lemma fields_of_read_back (o : OrderRecord) :
  Date.MINORDINAL <= order_date o <= Date.MAXORDINAL ->
  exists id amount date : string,
    fields_of o = [id; customer_name o; amount; date; product o]
    /\ Decode.integer id = Some (order_id o)
    /\ Decode.float amount = Some (order_amount o)
    /\ Decode.date date = Some (order_date o).
Proof.
  intros Hd.
  exists (Text.str_int (order_id o)), (Float.repr (order_amount o)),
    (Date.isoformat (order_date o)).
  split; [reflexivity|]. split; [apply integer_str_int|].
  split; [apply float_repr | now apply date_isoformat].
Qed.

(** Two orders with dates of the calendar and the same record are the same
    order. *)
Lemma fields_of_inj (a b : OrderRecord) :
  Date.MINORDINAL <= order_date a <= Date.MAXORDINAL ->
  Date.MINORDINAL <= order_date b <= Date.MAXORDINAL ->
  fields_of a = fields_of b -> a = b.
Proof.
  intros Ha Hb Heq.
  destruct (fields_of_read_back a Ha) as (ia & fa & da & Hfa & Hia & Hxa & Hda).
  destruct (fields_of_read_back b Hb) as (ib & fb & db & Hfb & Hib & Hxb & Hdb).
  rewrite Hfa, Hfb in Heq. injection Heq as -> Hn -> -> Hp.
  destruct a as [i1 n1 a1 d1 p1], b as [i2 n2 a2 d2 p2]. simpl in *.
  congruence.
Qed.

(** ** The sample sources meet the contracts *)

Lemma sample_uniform_in_range : uniform_in_range (sources := Sample.sample_sources).
Proof.
  intros a b g Hab.
  cbv [random_uniform Sample.sample_sources Sample.sample_uniform fst].
  set (t := (Z.of_nat (g mod 8) # 8)%Q).
  assert (Ht : (0 <= t <= 1)%Q).
  { pose proof (Nat.mod_upper_bound g 8). unfold t, Qle. simpl. lia. }
  assert (H1 : (0 <= (b - a) * t)%Q) by (apply Qmult_le_0_compat; lra).
  assert (H2 : (0 <= (b - a) * (1 - t))%Q) by (apply Qmult_le_0_compat; lra).
  lra.
Qed.

Lemma sample_date_in_range : date_in_range (sources := Sample.sample_sources).
Proof.
  intros lo hi g Hlh. simpl.
  pose proof (Z.mod_pos_bound (Z.of_nat g) (hi - lo + 1)). lia.
Qed.

Lemma sample_names_nonempty : names_nonempty (sources := Sample.sample_sources).
Proof.
  intros g. cbv [fake_name Sample.sample_sources Sample.sample_name fst].
  destruct (g mod 3)%nat as [|[|]]; discriminate.
Qed.

Lemma sample_words_nonempty : words_nonempty (sources := Sample.sample_sources).
Proof.
  intros g. cbv [fake_word Sample.sample_sources Sample.sample_word fst].
  destruct (g mod 2)%nat; discriminate.
Qed.

(** ** The order of the tasks *)

Lemma chain_runs_closed (done : list (Dag.task * Dag.outcome)) (t : Dag.task)
    (o : Dag.outcome) :
  In done Dag.chain_runs -> Dag.ready done t = true ->
  In (done ++ [(t, o)])%list Dag.chain_runs.
Proof.
  intros Hin Hready.
  assert (Hcheck : forallb (fun d =>
            forallb (fun t' =>
              negb (Dag.ready d t')
              || forallb (fun o' => Dag.in_chain_runs (d ++ [(t', o')])%list)
                   [Dag.success; Dag.failed])
              Dag.declared_order)
          Dag.chain_runs = true) by (vm_compute; reflexivity).
  rewrite forallb_forall in Hcheck. specialize (Hcheck done Hin).
  rewrite forallb_forall in Hcheck.
  assert (Ht : In t Dag.declared_order) by (destruct t; simpl; tauto).
  specialize (Hcheck t Ht). rewrite Hready in Hcheck. simpl in Hcheck.
  rewrite !andb_true_iff in Hcheck. destruct Hcheck as (Hs & Hf & _).
  assert (Ho : Dag.in_chain_runs (done ++ [(t, o)])%list = true)
    by (destruct o; assumption).
  apply existsb_exists in Ho as (r & Hr & Heq).
  apply bool_decide_eq_true_1 in Heq. now subst r.
Qed.

(** Every run is one of the runs along the chain. *)
Lemma run_in_chain_runs (done : list (Dag.task * Dag.outcome)) :
  Dag.run done -> In done Dag.chain_runs.
Proof.
  induction 1 as [|done t o _ IH Hready].
  - now left.
  - now apply chain_runs_closed.
Qed.

Lemma chain_runs_prefix (done : list (Dag.task * Dag.outcome)) :
  In done Dag.chain_runs ->
  exists k : nat, map fst done = take k Dag.declared_order.
Proof.
  intros Hin.
  assert (Hcheck : forallb (fun d =>
            existsb (fun k => Dag.tasks_eqb (map fst d) (take k Dag.declared_order))
              (seq 0 9))
          Dag.chain_runs = true) by (vm_compute; reflexivity).
  rewrite forallb_forall in Hcheck. specialize (Hcheck done Hin).
  apply existsb_exists in Hcheck as (k & _ & Hk).
  exists k. now apply bool_decide_eq_true_1 in Hk.
Qed.

Lemma full_run_runs : Dag.run Dag.full_run.
Proof.
  exact (Dag.run_step _ Dag.end_task Dag.success
        (Dag.run_step _ Dag.transform_bq_data_2 Dag.success
        (Dag.run_step _ Dag.transform_bq_data Dag.success
        (Dag.run_step _ Dag.call_procedure_task Dag.success
        (Dag.run_step _ Dag.insert_sales_orders_task Dag.success
        (Dag.run_step _ Dag.load_to_bigquery Dag.success
        (Dag.run_step _ Dag.generate_sales_data Dag.success
        (Dag.run_step _ Dag.start_task Dag.success Dag.run_nil eq_refl)
         eq_refl) eq_refl) eq_refl) eq_refl) eq_refl) eq_refl) eq_refl).
Qed.

Lemma fields_of_eq (o : OrderRecord) :
  fields_of o
  = [ Text.str_int (order_id o); customer_name o; Float.repr (order_amount o);
      Date.isoformat (order_date o); product o ].
Proof. reflexivity. Qed.

Section UploadFacts.

Context {Rand : Type} {sources : RandomSources Rand} {service : StorageService}.

(** A name that passes the check is handed on as it is. *)
Lemma validate_name_ok (bucket_name b : string) :
  validate_name bucket_name = Ok b -> b = bucket_name.
Proof.
  unfold validate_name.
  destruct (Text.first_char bucket_name), (Text.last_char bucket_name);
    try discriminate.
  destruct (_ && _); [intros [= <-]; reflexivity | discriminate].
Qed.

(** When the client finds credentials, the name passes and the service
    accepts, the text is stored and the line printed. *)
Lemma upload_csv_returns (bucket_name gcs_path csv_data : string) (w : World Rand) :
  client_error = None ->
  validate_name bucket_name = Ok bucket_name ->
  upload_error bucket_name gcs_path = None ->
  upload_csv bucket_name gcs_path csv_data w
  = Ok (tt, mkWorld (rng w) (today w)
              (<[(bucket_name, gcs_path) := mkBlob csv_data "text/csv"]> (gcs w))
              (app (stdout w)
                 ["Data uploaded to gs://" ++ bucket_name ++ "/" ++ gcs_path])).
Proof.
  intros Hc Hv Hu.
  unfold upload_csv, bind, storage_Client, client_bucket, lift,
    upload_from_string, print.
  rewrite Hc, Hv, Hu. reflexivity.
Qed.

(** An exception of the storage lines is one of the client's three. *)
Lemma upload_csv_raises (bucket_name gcs_path csv_data : string) (w : World Rand)
    (e : exn) :
  upload_csv bucket_name gcs_path csv_data w = Raise e ->
  client_error = Some e
  \/ validate_name bucket_name = Raise e
  \/ upload_error bucket_name gcs_path = Some e.
Proof.
  unfold upload_csv, bind, storage_Client, client_bucket, lift,
    upload_from_string, print.
  destruct client_error as [e0|]; [intros [= ->]; now left|].
  destruct (validate_name bucket_name) as [b|e0] eqn:Hv;
    [|intros [= ->]; right; now left].
  apply validate_name_ok in Hv. subst b.
  destruct (upload_error bucket_name gcs_path) as [e0|];
    [intros [= ->]; right; now right | discriminate].
Qed.

(** The first of the three calls that fails ends the storage lines with
    its exception. *)
Lemma upload_csv_fails (bucket_name gcs_path csv_data : string) (w : World Rand)
    (e : exn) :
  client_error = Some e
  \/ (client_error = None /\ validate_name bucket_name = Raise e)
  \/ (client_error = None /\ validate_name bucket_name = Ok bucket_name
      /\ upload_error bucket_name gcs_path = Some e) ->
  upload_csv bucket_name gcs_path csv_data w = Raise e.
Proof.
  unfold upload_csv, bind, storage_Client, client_bucket, lift,
    upload_from_string, print.
  intros [Hc | [[Hc Hv] | (Hc & Hv & Hu)]].
  - now rewrite Hc.
  - now rewrite Hc, Hv.
  - now rewrite Hc, Hv, Hu.
Qed.

(** The callable builds the text, whatever the count, and goes on to the
    storage lines with it. *)
Lemma generate_and_upload_unfold (bucket_name gcs_path : string)
    (num_orders : option Z) (w : World Rand) :
  exists (csv : string) (w1 : World Rand),
    build_csv (default DEFAULT_NUM_ORDERS num_orders) w = Ok (csv, w1)
    /\ only_rng w w1
    /\ generate_and_upload_sales_data bucket_name gcs_path num_orders w
       = upload_csv bucket_name gcs_path csv w1.
Proof.
  destruct (build_csv_returns (default DEFAULT_NUM_ORDERS num_orders) w)
    as (csv & w1 & Hrun & orders & _ & _ & _ & _ & _ & _ & Honly).
  exists csv, w1. split; [exact Hrun|]. split; [exact Honly|].
  unfold generate_and_upload_sales_data, bind. rewrite Hrun. reflexivity.
Qed.

(** The callable returns when the storage lines do: it stores the text as
    the blob, prints one line, and changes nothing else. *)
Lemma generate_and_upload_returns (bucket_name gcs_path : string)
    (num_orders : option Z) (w : World Rand) :
  client_error = None ->
  validate_name bucket_name = Ok bucket_name ->
  upload_error bucket_name gcs_path = None ->
  exists (csv : string) (w1 w2 : World Rand),
    build_csv (default DEFAULT_NUM_ORDERS num_orders) w = Ok (csv, w1)
    /\ generate_and_upload_sales_data bucket_name gcs_path num_orders w = Ok (tt, w2)
    /\ gcs w2 = <[(bucket_name, gcs_path) := mkBlob csv "text/csv"]> (gcs w)
    /\ stdout w2
       = app (stdout w) ["Data uploaded to gs://" ++ bucket_name ++ "/" ++ gcs_path]
    /\ today w2 = today w
    /\ rng w2 = rng w1.
Proof.
  intros Hc Hv Hu.
  destruct (generate_and_upload_unfold bucket_name gcs_path num_orders w)
    as (csv & w1 & Hcsv & (Ht & Hg & Hs) & Hrun).
  eexists csv, w1, _. split; [exact Hcsv|]. split.
  - rewrite Hrun. now apply upload_csv_returns.
  - simpl. rewrite Hg, Hs, Ht. repeat split.
Qed.

End UploadFacts.

(** ** Worked examples *)

Example ord2ymd_dag_start : Date.ord2ymd 739208 = (2024, 11, 18).
Proof. reflexivity. Qed.

Example isoformat_leap_day : Date.isoformat 738945 = "2024-02-29".
Proof. reflexivity. Qed.

Example isoformat_first_day : Date.isoformat Date.MINORDINAL = "0001-01-01".
Proof. reflexivity. Qed.

Example isoformat_last_day : Date.isoformat Date.MAXORDINAL = "9999-12-31".
Proof. reflexivity. Qed.

(** A sample just below 1000 rounds to 1000.00; exact ties go to the even
    hundredth. *)
Example round2_values :
  ( Float.round2 (999996 # 1000), Float.round2 (2001 # 200),
    Float.round2 (2003 # 200), Float.round2 (123456 # 10000) )
  = (100000, 1000, 1002, 1235).
Proof. reflexivity. Qed.

Example repr_values :
  ( Float.repr 25750, Float.repr 1000, Float.repr 13375, Float.repr 100000,
    Float.repr 1005 )
  = ("257.5", "10.0", "133.75", "1000.0", "10.05").
Proof. reflexivity. Qed.

(** A field with a comma is quoted and read back whole; a record of one
    empty field and an empty record are told apart. *)
Example reader_quoted_fields :
  Csv.reader (Csv.writerow ["Smith, John"; ""; "x"] ++ Csv.writerow [""]
              ++ Csv.writerow [])
  = [["Smith, John"; ""; "x"]; [""]; []].
Proof. reflexivity. Qed.

Example writerow_quotes_length :
  String.length (Csv.writerow ["Smith, John"; ""; "x"]) = 17%nat.
Proof. reflexivity. Qed.

(** Three orders from the sample sources on 2024-11-18. *)
Example sample_run_of_3 :
  exists (csv : string) (w' : World nat),
    build_csv (sources := Sample.sample_sources) 3 Sample.world0 = Ok (csv, w')
    /\ Csv.reader csv
       = [ ["order_id"; "customer_name"; "order_amount"; "order_date"; "product"];
           ["1"; "Rick Grimes"; "381.25"; "2024-10-25"; "gadget"];
           ["2"; "Smith, John"; "505.0"; "2024-10-26"; "widget"];
           ["3"; "Ada Lovelace"; "628.75"; "2024-10-27"; "gadget"] ].
Proof. eexists _, _. split; vm_compute; reflexivity. Qed.

(** With no orders the text is the header line. *)
Example sample_run_of_0 :
  exists w' : World nat,
    build_csv (sources := Sample.sample_sources) 0 Sample.world0
    = Ok ("order_id,customer_name,order_amount,order_date,product"
          ++ String Text.newline "", w').
Proof. eexists. vm_compute. reflexivity. Qed.

(** A frame with columns of different lengths is refused. *)
Example pd_DataFrame_ragged :
  Frame.pd_DataFrame [("a", [Frame.CInt 1; Frame.CInt 2]); ("b", [Frame.CInt 1])]
  = Raise (ValueError "All arrays must be of the same length").
Proof. reflexivity. Qed.

(** * The claims *)

Section GeneratorClaims.

Context {Rand : Type} {sources : RandomSources Rand} {service : StorageService}.

(** C1: for every count N >= 0 the text the generator builds is one header
    record followed by exactly N data records, both as written and as a CSV
    reader takes it apart; for N = 0 it is the header line alone. *)
Theorem csv_is_header_and_N_rows (N : Z) (w : World Rand) :
  0 <= N ->
  exists (csv : string) (w' : World Rand) (records : list (list string)),
    build_csv N w = Ok (csv, w')
    /\ csv = Csv.writerow header ++ Text.concat (map Csv.writerow records)
    /\ Csv.reader csv = header :: records
    /\ Z.of_nat (length records) = N
    /\ (N = 0 ->
        csv = "order_id,customer_name,order_amount,order_date,product"
              ++ String Text.newline "").
Proof.
  intros HN.
  destruct (build_csv_returns N w)
    as (csv & w' & Hrun & orders & _ & -> & Hread & Hlen & _).
  exists (Csv.to_csv (data_of orders)), w', (map fields_of orders).
  split; [exact Hrun|]. split; [apply to_csv_data_of|]. split; [exact Hread|].
  split.
  - rewrite length_map, Hlen. unfold range_len. lia.
  - intros ->. destruct orders; [reflexivity | discriminate Hlen].
Qed.

(** C2: for every N >= 1 the order_id list of the batch is 1, 2, ..., N in
    that order, without repeats; the text has N + 1 records, and the first
    field of the record at position k after the header is the decimal
    numeral of k: it reads as the integer k.  For N = 3 the four records are
    the header and three that start with 1, 2 and 3. *)
Theorem order_ids_are_1_to_N (N : Z) (w : World Rand) :
  1 <= N ->
  exists (data : list (string * list Frame.cell)) (csv : string) (w' : World Rand)
         (ids : list Z),
    build_data N w = Ok (data, w')
    /\ build_csv N w = Ok (csv, w')
    /\ data !! O = Some ("order_id", map Frame.CInt ids)
    /\ ids = map Z.of_nat (seq 1 (Z.to_nat N))
    /\ NoDup ids
    /\ Z.of_nat (length (Csv.reader csv)) = N + 1
    /\ (forall k : Z, 1 <= k <= N ->
        exists (first : string) (rest : list string),
          Csv.reader csv !! Z.to_nat k = Some (first :: rest)
          /\ Decode.integer first = Some k
          /\ first = Text.str_int k)
    /\ (N = 3 ->
        exists r1 r2 r3 : list string,
          Csv.reader csv
          = [ [ "order_id"; "customer_name"; "order_amount"; "order_date"; "product" ];
              "1" :: r1; "2" :: r2; "3" :: r3 ]).
Proof.
  intros HN.
  destruct (build_csv_returns N w)
    as (csv & w' & Hrun & orders & Hdata & -> & Hread & Hlen & Hids & _).
  exists (data_of orders), (Csv.to_csv (data_of orders)), w', (map order_id orders).
  split; [exact Hdata|]. split; [exact Hrun|].
  split; [simpl; now rewrite map_map|]. split; [exact Hids|].
  assert (Hfirst : forall k : Z, 1 <= k <= N ->
            exists rest : list string,
              Csv.reader (Csv.to_csv (data_of orders)) !! Z.to_nat k
              = Some (Text.str_int k :: rest)).
  { intros k Hk. rewrite Hread.
    destruct (Z.to_nat k) as [|i] eqn:Hi; [lia|]. simpl.
    assert (Hlt : (i < length orders)%nat) by (rewrite Hlen; unfold range_len; lia).
    destruct (lookup_lt_is_Some_2 orders i Hlt) as [o Ho].
    rewrite list_lookup_fmap, Ho. simpl.
    exists (tl (fields_of o)). unfold fields_of, cells_of. simpl. do 2 f_equal.
    assert (Hid : map order_id orders !! i = Some (order_id o))
      by (now rewrite list_lookup_fmap, Ho).
    rewrite Hids, list_lookup_fmap, lookup_seq_lt in Hid by now rewrite <- Hlen.
    injection Hid as <-. f_equal. lia. }
  assert (Hcount : Z.of_nat (length (Csv.reader (Csv.to_csv (data_of orders)))) = N + 1).
  { rewrite Hread. simpl length. rewrite length_map, Hlen. unfold range_len. lia. }
  split; [|split; [exact Hcount|split]].
  - rewrite Hids. apply (NoDup_fmap_2 Z.of_nat), NoDup_seq.
  - intros k Hk. destruct (Hfirst k Hk) as [rest Hrest].
    exists (Text.str_int k), rest.
    split; [exact Hrest|]. split; [apply integer_str_int | reflexivity].
  - intros ->.
    destruct (Hfirst 1 ltac:(lia)) as [r1 H1].
    destruct (Hfirst 2 ltac:(lia)) as [r2 H2].
    destruct (Hfirst 3 ltac:(lia)) as [r3 H3].
    exists r1, r2, r3. rewrite Hread in H1, H2, H3 |- *.
    unfold range_len in Hlen.
    destruct orders as [|o1 [|o2 [|o3 [|o4 l]]]]; simpl in Hlen; try lia.
    change (Some (fields_of o1) = Some ("1" :: r1)) in H1.
    change (Some (fields_of o2) = Some ("2" :: r2)) in H2.
    change (Some (fields_of o3) = Some ("3" :: r3)) in H3.
    assert (E1 : fields_of o1 = "1" :: r1) by congruence.
    assert (E2 : fields_of o2 = "2" :: r2) by congruence.
    assert (E3 : fields_of o3 = "3" :: r3) by congruence.
    cbn [map]. rewrite E1, E2, E3. reflexivity.
Qed.

(** C3: when [random.uniform] keeps to its interval, every order_amount of
    a batch is the sample rounded to the nearest hundredth, so a whole number
    of hundredths between 10.00 and 1000.00 inclusive, written with at most
    two decimal digits. *)
Theorem order_amounts_in_range (N : Z) (w : World Rand) :
  uniform_in_range ->
  exists (data : list (string * list Frame.cell)) (w' : World Rand)
         (amounts : list Z),
    build_data N w = Ok (data, w')
    /\ data !! 2%nat = Some ("order_amount", map Frame.CFloat amounts)
    /\ length amounts = range_len N
    /\ Forall (fun h =>
         (exists x : Q,
            drawn (random_uniform (inject_Z 10) (inject_Z 1000)) x
            /\ (inject_Z 10 <= x <= inject_Z 1000)%Q
            /\ h = Float.round2 x
            /\ (- (1 # 200) <= (h # 100) - x <= 1 # 200)%Q)
         /\ 1000 <= h <= 100000
         /\ (inject_Z 10 <= h # 100 <= inject_Z 1000)%Q
         /\ (Float.decimal_places (Float.repr h) = Some 1%nat
             \/ Float.decimal_places (Float.repr h) = Some 2%nat)) amounts.
Proof.
  intros Hu.
  destruct (build_data_returns N w)
    as (data & w' & Hrun & orders & -> & Hlen & _ & Hdrawn & _).
  exists (data_of orders), w', (map order_amount orders).
  split; [exact Hrun|]. split; [simpl; now rewrite map_map|].
  split; [now rewrite length_map|].
  apply Forall_map. revert Hdrawn. apply List.Forall_impl.
  intros o (_ & (x & Hx & Hh) & _).
  assert (Hrange : (inject_Z 10 <= x <= inject_Z 1000)%Q).
  { destruct Hx as [g <-]. apply Hu. unfold Qle. simpl. lia. }
  pose proof (round2_bounds x Hrange) as Hb. rewrite <- Hh in Hb.
  split; [|split; [exact Hb|split]].
  - exists x. repeat split; try assumption; try apply Hrange;
      rewrite Hh; apply round2_nearest.
  - unfold Qle. simpl. lia.
  - rewrite repr_decimal_places_mod. destruct (_ =? _); auto.
Qed.

(** C4: when Faker's [date_between_dates] keeps to its two dates, every
    order_date of a batch lies from 30 days before the date of the run
    through that date, both included. *)
Theorem order_dates_in_last_30_days (N : Z) (w : World Rand) :
  date_in_range ->
  exists (data : list (string * list Frame.cell)) (w' : World Rand)
         (dates : list Z),
    build_data N w = Ok (data, w')
    /\ data !! 3%nat = Some ("order_date", map Frame.CDate dates)
    /\ length dates = range_len N
    /\ Forall (fun d => today w - 30 <= d <= today w) dates.
Proof.
  intros Hd.
  destruct (build_data_returns N w)
    as (data & w' & Hrun & orders & -> & Hlen & _ & Hdrawn & _).
  exists (data_of orders), w', (map order_date orders).
  split; [exact Hrun|]. split; [simpl; now rewrite map_map|].
  split; [now rewrite length_map|].
  apply Forall_map. revert Hdrawn. apply List.Forall_impl.
  intros o (_ & _ & [g Hg] & _). rewrite <- Hg.
  pose proof (Hd (today w + -30) (today w) g). lia.
Qed.

(** C5, as amended: when the dates Faker gives keep to their range and the
    clock shows a date at least 30 days after the first representable one,
    every order_date field has the shape YYYY-MM-DD, and every order_amount
    field is the shortest decimal of the amount: one decimal place when the
    hundredths digit is zero, two otherwise. *)
Theorem dates_iso_amounts_shortest (N : Z) (w : World Rand) :
  date_in_range ->
  Date.MINORDINAL + 30 <= today w <= Date.MAXORDINAL ->
  exists (csv : string) (w' : World Rand) (orders : list OrderRecord),
    build_csv N w = Ok (csv, w')
    /\ Csv.reader csv = header :: map fields_of orders
    /\ length orders = range_len N
    /\ Forall (fun o =>
         fields_of o
         = [ Text.str_int (order_id o); customer_name o;
             Float.repr (order_amount o); Date.isoformat (order_date o);
             product o ]
         /\ Date.is_iso_date (Date.isoformat (order_date o)) = true
         /\ Float.decimal_places (Float.repr (order_amount o))
            = Some (if order_amount o mod 10 =? 0 then 1%nat else 2%nat)) orders.
Proof.
  intros Hd Hclock.
  destruct (build_csv_returns N w)
    as (csv & w' & Hrun & orders & _ & _ & Hread & Hlen & _ & Hdrawn & _).
  exists csv, w', orders. repeat split; try assumption.
  revert Hdrawn. apply List.Forall_impl.
  intros o (_ & _ & [g Hg] & _).
  split; [reflexivity|]. split; [|apply repr_decimal_places_mod].
  apply isoformat_shape. rewrite <- Hg.
  pose proof (Hd (today w + -30) (today w) g). lia.
Qed.


(** C7, as amended: for every count N >= 0 the frame is accepted and the
    text is built: generating and serialising never raise.  The callable
    goes on to upload the text, and it runs to completion exactly when the
    storage client finds credentials, lets the name of the bucket pass and
    the service accepts the upload; otherwise it raises the exception of
    the first of these three calls that fails, and it raises no other. *)
Theorem generator_raises_only_from_storage (N : Z) (bucket_name gcs_path : string)
    (w : World Rand) :
  0 <= N ->
  (exists (csv : string) (w' : World Rand), build_csv N w = Ok (csv, w'))
  /\ (client_error = None ->
      validate_name bucket_name = Ok bucket_name ->
      upload_error bucket_name gcs_path = None ->
      exists w' : World Rand,
        generate_and_upload_sales_data bucket_name gcs_path (Some N) w = Ok (tt, w'))
  /\ (forall e : exn,
        generate_and_upload_sales_data bucket_name gcs_path (Some N) w = Raise e ->
        client_error = Some e
        \/ validate_name bucket_name = Raise e
        \/ upload_error bucket_name gcs_path = Some e)
  /\ (forall e : exn,
        client_error = Some e
        \/ (client_error = None /\ validate_name bucket_name = Raise e)
        \/ (client_error = None /\ validate_name bucket_name = Ok bucket_name
            /\ upload_error bucket_name gcs_path = Some e) ->
        generate_and_upload_sales_data bucket_name gcs_path (Some N) w = Raise e).
Proof.
  intros _.
  destruct (generate_and_upload_unfold bucket_name gcs_path (Some N) w)
    as (csv & w1 & Hcsv & _ & Hrun).
  simpl default in Hcsv.
  split; [eauto|]. split; [|split].
  - intros Hc Hv Hu. rewrite Hrun, (upload_csv_returns _ _ _ _ Hc Hv Hu). eauto.
  - intros e He. rewrite Hrun in He. exact (upload_csv_raises _ _ _ _ _ He).
  - intros e He. rewrite Hrun. now apply upload_csv_fails.
Qed.

(** C8: for a count N, 500 when it is left out, and dates of Faker within
    their range, the text has the header order_id, customer_name,
    order_amount, order_date, product and then one record for each of the N
    orders of the dict, in their order: its five fields are, in the order
    of the header, a numeral that reads as the order's id, the name, a
    decimal that reads as the amount, a date that reads as the order's
    date, and the product.  The callable returns nothing: this text is what
    it stores as the blob when the storage calls go through. *)
Theorem csv_lists_fields_in_order (N : Z) (bucket_name gcs_path : string)
    (w : World Rand) :
  0 <= N ->
  date_in_range ->
  Date.MINORDINAL + 30 <= today w <= Date.MAXORDINAL ->
  exists (orders : list OrderRecord) (csv : string) (w1 : World Rand)
         (records : list (list string)),
    build_data N w
    = Ok ([ ("order_id", map Frame.CInt (map order_id orders));
            ("customer_name", map Frame.CStr (map customer_name orders));
            ("order_amount", map Frame.CFloat (map order_amount orders));
            ("order_date", map Frame.CDate (map order_date orders));
            ("product", map Frame.CStr (map product orders)) ], w1)
    /\ build_csv N w = Ok (csv, w1)
    /\ Z.of_nat (length orders) = N
    /\ Csv.reader csv
       = [ "order_id"; "customer_name"; "order_amount"; "order_date"; "product" ]
         :: records
    /\ Forall2 (fun (o : OrderRecord) (record : list string) =>
         exists id amount date : string,
           record = [id; customer_name o; amount; date; product o]
           /\ Decode.integer id = Some (order_id o)
           /\ Decode.float amount = Some (order_amount o)
           /\ Decode.date date = Some (order_date o)) orders records
    /\ (client_error = None ->
        validate_name bucket_name = Ok bucket_name ->
        upload_error bucket_name gcs_path = None ->
        exists w2 : World Rand,
          generate_and_upload_sales_data bucket_name gcs_path (Some N) w = Ok (tt, w2)
          /\ gcs w2 !! (bucket_name, gcs_path) = Some (mkBlob csv "text/csv"))
    /\ generate_and_upload_sales_data bucket_name gcs_path None
       = generate_and_upload_sales_data bucket_name gcs_path (Some 500).
Proof.
  intros HN Hd Hclock.
  destruct (build_csv_returns N w)
    as (csv & w1 & Hcsv & orders & Hdata & _ & Hread & Hlen & _ & Hdrawn & _).
  exists orders, csv, w1, (map fields_of orders).
  split; [rewrite Hdata; unfold data_of; now rewrite !map_map|].
  split; [exact Hcsv|].
  split; [rewrite Hlen; unfold range_len; lia|].
  split; [exact Hread|]. split; [|split; [|reflexivity]].
  - apply Forall2_fmap_r, Forall_Forall2_diag.
    revert Hdrawn. apply List.Forall_impl.
    intros o (_ & _ & [g Hg] & _). apply fields_of_read_back. rewrite <- Hg.
    pose proof (Hd (today w + -30) (today w) g).
    unfold Date.MINORDINAL, Date.MAXORDINAL in *. lia.
  - intros Hc Hv Hu.
    destruct (generate_and_upload_returns bucket_name gcs_path (Some N) w Hc Hv Hu)
      as (csv' & w1' & w2 & Hcsv' & Hrun & Hgcs & _).
    simpl default in Hcsv'. rewrite Hcsv in Hcsv'. injection Hcsv' as <- <-.
    exists w2. split; [exact Hrun|]. rewrite Hgcs. apply lookup_insert_eq.
Qed.

End GeneratorClaims.

(** C9: in every run of the DAG the tasks that have run are an initial part
    of start, generate_sales_data, load_to_bigquery, insert_sales_orders,
    call_procedure, transform_bigquery_data, transform_bigquery_data_2, end,
    in that order: the upload comes before the load, the load before the
    creation of the procedure, its call and the two queries with a
    destination table, and no task runs before one that precedes it. *)
Theorem dag_steps_run_in_order (done : list (Dag.task * Dag.outcome)) :
  Dag.run done ->
  (exists k : nat, map fst done = take k Dag.declared_order)
  /\ (forall (i j : nat) (a b : Dag.task),
        Dag.declared_order !! i = Some a -> Dag.declared_order !! j = Some b ->
        (i < j)%nat -> In b (map fst done) ->
        map fst done !! i = Some a /\ map fst done !! j = Some b)
  /\ map Dag.operator_of Dag.declared_order
     = [ Dag.EmptyOperator;
         Dag.PythonOperator 500;
         Dag.LoadJob Dag.BIGQUERY_TABLE 1 schema_fields;
         Dag.QueryJob Dag.CREATE_PROCEDURE None;
         Dag.QueryJob Dag.CALL_PROCEDURE None;
         Dag.QueryJob Dag.SELECT_ORDER_CATEGORIES (Some Dag.TRANSFORMED_TABLE);
         Dag.QueryJob Dag.SELECT_CUSTOMER_TOTALS (Some Dag.AMOUNT_TABLE);
         Dag.EmptyOperator ].
Proof.
  intros Hrun.
  destruct (chain_runs_prefix done (run_in_chain_runs done Hrun)) as [k Hk].
  split; [now exists k|]. split; [|reflexivity].
  intros i j a b Ha Hb Hij Hin. rewrite Hk in *.
  assert (Hnodup : NoDup Dag.declared_order).
  { assert (Hnd : Dag.order_nodup = true) by (vm_compute; reflexivity).
    now apply bool_decide_eq_true_1 in Hnd. }
  apply list_elem_of_In, list_elem_of_lookup in Hin as [j' Hj'].
  assert (Hj'k : (j' < k)%nat).
  { apply lookup_lt_Some in Hj'. rewrite length_take in Hj'. lia. }
  rewrite lookup_take_lt in Hj' by assumption.
  assert (j' = j) by (eapply NoDup_lookup; eauto). subst j'.
  rewrite !lookup_take_lt by lia. auto.
Qed.

Section SchemaClaims.

Context {Rand : Type} {sources : RandomSources Rand}.

(** C10: for every count N >= 0, when names and words are never empty, the
    dict has the five columns of the load schema, each a list of length N;
    every row of the frame holds five values, none missing, and every data
    record of the text has five fields, none empty, as the five REQUIRED
    fields of the schema ask. *)
Theorem five_columns_of_length_N (N : Z) (w : World Rand) :
  0 <= N ->
  names_nonempty ->
  words_nonempty ->
  exists (data : list (string * list Frame.cell)) (csv : string) (w' : World Rand),
    build_data N w = Ok (data, w')
    /\ build_csv N w = Ok (csv, w')
    /\ map fst data = map field_name schema_fields
    /\ length data = 5%nat
    /\ Forall (fun col => Z.of_nat (length (snd col)) = N) data
    /\ Forall (fun r => length r = 5%nat /\ Forall (fun c => c <> Frame.CNone) r)
         (Frame.rows data)
    /\ Z.of_nat (length (tl (Csv.reader csv))) = N
    /\ Forall (fun rec => length rec = 5%nat /\ Forall (fun f => f <> "") rec)
         (tl (Csv.reader csv))
    /\ length schema_fields = 5%nat
    /\ Forall (fun f => field_mode f = REQUIRED) schema_fields.
Proof.
  intros HN Hnames Hwords.
  destruct (build_csv_returns N w)
    as (csv & w' & Hrun & orders & Hdata & _ & Hread & Hlen & _ & Hdrawn & _).
  assert (HlenN : Z.of_nat (length orders) = N)
    by (rewrite Hlen; unfold range_len; lia).
  exists (data_of orders), csv, w'.
  split; [exact Hdata|]. split; [exact Hrun|]. split; [reflexivity|].
  split; [reflexivity|]. split.
  { unfold data_of. repeat constructor; simpl; now rewrite length_map. }
  split.
  { rewrite rows_data_of. apply Forall_map, Forall_forall. intros o _.
    split; [reflexivity|]. unfold cells_of. repeat constructor; discriminate. }
  rewrite Hread. simpl tl. split; [now rewrite length_map|]. split.
  { apply Forall_map. revert Hdrawn. apply List.Forall_impl.
    intros o ([gn Hn] & _ & _ & [gw Hw]).
    split; [reflexivity|]. rewrite fields_of_eq.
    repeat constructor.
    - apply str_int_nonempty.
    - rewrite <- Hn. apply Hnames.
    - apply repr_nonempty.
    - unfold Date.isoformat. destruct (Date.ord2ymd _) as [[y m] d].
      intros Heq. apply (f_equal String.length) in Heq.
      rewrite !length_append in Heq. simpl in Heq. lia.
    - rewrite <- Hw. apply Hwords. }
  split; [reflexivity|]. repeat constructor.
Qed.

End SchemaClaims.

(** * The claims on sample runs *)

#[local] Existing Instance Sample.sample_sources.
#[local] Existing Instance Sample.sample_service.


Lemma csv_is_header_and_N_rows_witness :
  0 <= 3
  /\ exists (csv : string) (w' : World nat) (records : list (list string)),
       build_csv 3 Sample.world0 = Ok (csv, w')
       /\ csv = Csv.writerow header ++ Text.concat (map Csv.writerow records)
       /\ Csv.reader csv = header :: records
       /\ Z.of_nat (length records) = 3
       /\ (3 = 0 ->
           csv = "order_id,customer_name,order_amount,order_date,product"
                 ++ String Text.newline "").
Proof.
  split; [lia | apply (csv_is_header_and_N_rows 3 Sample.world0); lia].
Defined.

Lemma order_ids_are_1_to_N_witness :
  1 <= 3
  /\ exists (csv : string) (w' : World nat) (r1 r2 r3 : list string),
       build_csv 3 Sample.world0 = Ok (csv, w')
       /\ Z.of_nat (length (Csv.reader csv)) = 3 + 1
       /\ Csv.reader csv
          = [ [ "order_id"; "customer_name"; "order_amount"; "order_date"; "product" ];
              "1" :: r1; "2" :: r2; "3" :: r3 ]
       /\ (forall k : Z, 1 <= k <= 3 ->
           exists (first : string) (rest : list string),
             Csv.reader csv !! Z.to_nat k = Some (first :: rest)
             /\ Decode.integer first = Some k).
Proof.
  split; [lia|].
  destruct (order_ids_are_1_to_N 3 Sample.world0)
    as (data & csv & w' & ids & _ & Hcsv & _ & _ & _ & Hlen & Hfirst & Hthree);
    [lia|].
  destruct (Hthree eq_refl) as (r1 & r2 & r3 & Hread).
  exists csv, w', r1, r2, r3.
  split; [exact Hcsv|]. split; [exact Hlen|]. split; [exact Hread|].
  intros k Hk. destruct (Hfirst k Hk) as (first & rest & Hrec & Hint & _).
  exists first, rest. split; assumption.
Defined.

Lemma order_amounts_in_range_witness :
  uniform_in_range (sources := Sample.sample_sources)
  /\ exists (data : list (string * list Frame.cell)) (w' : World nat)
            (amounts : list Z),
       build_data 4 Sample.world0 = Ok (data, w')
       /\ data !! 2%nat = Some ("order_amount", map Frame.CFloat amounts)
       /\ length amounts = range_len 4
       /\ Forall (fun h =>
            (exists x : Q,
               drawn (random_uniform (inject_Z 10) (inject_Z 1000)) x
               /\ (inject_Z 10 <= x <= inject_Z 1000)%Q
               /\ h = Float.round2 x
               /\ (- (1 # 200) <= (h # 100) - x <= 1 # 200)%Q)
            /\ 1000 <= h <= 100000
            /\ (inject_Z 10 <= h # 100 <= inject_Z 1000)%Q
            /\ (Float.decimal_places (Float.repr h) = Some 1%nat
                \/ Float.decimal_places (Float.repr h) = Some 2%nat)) amounts.
Proof.
  split; [exact sample_uniform_in_range|].
  apply (order_amounts_in_range 4 Sample.world0). exact sample_uniform_in_range.
Defined.

Lemma order_dates_in_last_30_days_witness :
  date_in_range (sources := Sample.sample_sources)
  /\ exists (data : list (string * list Frame.cell)) (w' : World nat)
            (dates : list Z),
       build_data 4 Sample.world0 = Ok (data, w')
       /\ data !! 3%nat = Some ("order_date", map Frame.CDate dates)
       /\ length dates = range_len 4
       /\ Forall (fun d => today Sample.world0 - 30 <= d <= today Sample.world0) dates.
Proof.
  split; [exact sample_date_in_range|].
  apply (order_dates_in_last_30_days 4 Sample.world0). exact sample_date_in_range.
Defined.

Lemma dates_iso_amounts_shortest_witness :
  date_in_range (sources := Sample.sample_sources)
  /\ Date.MINORDINAL + 30 <= today Sample.world0 <= Date.MAXORDINAL
  /\ exists (csv : string) (w' : World nat) (orders : list OrderRecord),
       build_csv 2 Sample.world0 = Ok (csv, w')
       /\ Csv.reader csv = header :: map fields_of orders
       /\ length orders = range_len 2
       /\ Forall (fun o =>
            fields_of o
            = [ Text.str_int (order_id o); customer_name o;
                Float.repr (order_amount o); Date.isoformat (order_date o);
                product o ]
            /\ Date.is_iso_date (Date.isoformat (order_date o)) = true
            /\ Float.decimal_places (Float.repr (order_amount o))
               = Some (if order_amount o mod 10 =? 0 then 1%nat else 2%nat)) orders.
Proof.
  split; [exact sample_date_in_range|].
  split; [unfold Date.MINORDINAL, Date.MAXORDINAL; simpl; lia|].
  apply (dates_iso_amounts_shortest 2 Sample.world0).
  - exact sample_date_in_range.
  - unfold Date.MINORDINAL, Date.MAXORDINAL. simpl. lia.
Defined.


Lemma generator_raises_only_from_storage_witness :
  0 <= 500
  /\ (exists (csv : string) (w' : World nat), build_csv 500 Sample.world0 = Ok (csv, w'))
  /\ (client_error = None ->
      validate_name "sales-bucket" = Ok "sales-bucket" ->
      upload_error "sales-bucket" "orders/sales.csv" = None ->
      exists w' : World nat,
        generate_and_upload_sales_data "sales-bucket" "orders/sales.csv" (Some 500)
          Sample.world0 = Ok (tt, w'))
  /\ (forall e : exn,
        generate_and_upload_sales_data "sales-bucket" "orders/sales.csv" (Some 500)
          Sample.world0 = Raise e ->
        client_error = Some e
        \/ validate_name "sales-bucket" = Raise e
        \/ upload_error "sales-bucket" "orders/sales.csv" = Some e).
Proof.
  split; [lia|].
  destruct (generator_raises_only_from_storage 500 "sales-bucket" "orders/sales.csv"
              Sample.world0) as (Hcsv & Hruns & Hraises & _); [lia|].
  split; [exact Hcsv|]. split; [exact Hruns | exact Hraises].
Defined.

Lemma csv_lists_fields_in_order_witness :
  0 <= 3
  /\ date_in_range (sources := Sample.sample_sources)
  /\ Date.MINORDINAL + 30 <= today Sample.world0 <= Date.MAXORDINAL
  /\ exists (orders : list OrderRecord) (csv : string) (w1 : World nat)
            (records : list (list string)),
       build_data 3 Sample.world0
       = Ok ([ ("order_id", map Frame.CInt (map order_id orders));
               ("customer_name", map Frame.CStr (map customer_name orders));
               ("order_amount", map Frame.CFloat (map order_amount orders));
               ("order_date", map Frame.CDate (map order_date orders));
               ("product", map Frame.CStr (map product orders)) ], w1)
       /\ build_csv 3 Sample.world0 = Ok (csv, w1)
       /\ Z.of_nat (length orders) = 3
       /\ Csv.reader csv
          = [ "order_id"; "customer_name"; "order_amount"; "order_date"; "product" ]
            :: records
       /\ Forall2 (fun (o : OrderRecord) (record : list string) =>
            exists id amount date : string,
              record = [id; customer_name o; amount; date; product o]
              /\ Decode.integer id = Some (order_id o)
              /\ Decode.float amount = Some (order_amount o)
              /\ Decode.date date = Some (order_date o)) orders records
       /\ (client_error = None ->
           validate_name "sales-bucket" = Ok "sales-bucket" ->
           upload_error "sales-bucket" "orders/sales.csv" = None ->
           exists w2 : World nat,
             generate_and_upload_sales_data "sales-bucket" "orders/sales.csv" (Some 3)
               Sample.world0 = Ok (tt, w2)
             /\ gcs w2 !! ("sales-bucket", "orders/sales.csv")
                = Some (mkBlob csv "text/csv"))
       /\ generate_and_upload_sales_data (sources := Sample.sample_sources)
            "sales-bucket" "orders/sales.csv" None
          = generate_and_upload_sales_data "sales-bucket" "orders/sales.csv" (Some 500).
Proof.
  split; [lia|]. split; [exact sample_date_in_range|].
  split; [unfold Date.MINORDINAL, Date.MAXORDINAL; simpl; lia|].
  apply (csv_lists_fields_in_order 3 "sales-bucket" "orders/sales.csv" Sample.world0).
  - lia.
  - exact sample_date_in_range.
  - unfold Date.MINORDINAL, Date.MAXORDINAL. simpl. lia.
Defined.

Lemma five_columns_of_length_N_witness :
  0 <= 3
  /\ names_nonempty (sources := Sample.sample_sources)
  /\ words_nonempty (sources := Sample.sample_sources)
  /\ exists (data : list (string * list Frame.cell)) (csv : string) (w' : World nat),
       build_data 3 Sample.world0 = Ok (data, w')
       /\ build_csv 3 Sample.world0 = Ok (csv, w')
       /\ map fst data = map field_name schema_fields
       /\ length data = 5%nat
       /\ Forall (fun col => Z.of_nat (length (snd col)) = 3) data
       /\ Forall (fun r => length r = 5%nat /\ Forall (fun c => c <> Frame.CNone) r)
            (Frame.rows data)
       /\ Z.of_nat (length (tl (Csv.reader csv))) = 3
       /\ Forall (fun rec => length rec = 5%nat /\ Forall (fun f => f <> "") rec)
            (tl (Csv.reader csv))
       /\ length schema_fields = 5%nat
       /\ Forall (fun f => field_mode f = REQUIRED) schema_fields.
Proof.
  split; [lia|].
  split; [exact sample_names_nonempty|].
  split; [exact sample_words_nonempty|].
  apply (five_columns_of_length_N 3 Sample.world0).
  - lia.
  - exact sample_names_nonempty.
  - exact sample_words_nonempty.
Defined.

Lemma dag_steps_run_in_order_witness :
  Dag.run Dag.full_run
  /\ exists k : nat, map fst Dag.full_run = take k Dag.declared_order.
Proof.
  split; [exact full_run_runs|].
  exact (proj1 (dag_steps_run_in_order Dag.full_run full_run_runs)).
Defined.

(** C5 as stated fails: with two orders drawn from the sample sources the
    first amount is 257.5, written with one decimal place. *)
Lemma amount_field_with_one_decimal :
  exists (csv : string) (w' : World nat),
    build_csv 2 Sample.world0 = Ok (csv, w')
    /\ ~ dates_iso_amounts_two_places csv.
Proof.
  eexists _, _. split; [vm_compute; reflexivity|].
  intros Hc.
  destruct (Hc ["1"; "Rick Grimes"; "257.5"; "2024-10-23"; "widget"]) as [_ Hp].
  - vm_compute. left. reflexivity.
  - vm_compute in Hp. discriminate Hp.
Qed.


(** C7 as stated fails: with no orders to generate and a service that would
    take the upload, the callable raises for a bucket name that the storage
    client refuses, here one that starts and ends with a hyphen. *)
Lemma generator_raises_for_refused_bucket :
  0 <= 0
  /\ generate_and_upload_sales_data "-sales-" "orders/sales.csv" (Some 0) Sample.world0
     = Raise (ValueError "Bucket names must start and end with a number or letter.")
  /\ ~ never_raises (generate_and_upload_sales_data (sources := Sample.sample_sources)
                       "-sales-" "orders/sales.csv" (Some 0)).
Proof.
  split; [lia|].
  assert (Hraise : generate_and_upload_sales_data "-sales-" "orders/sales.csv" (Some 0)
                     Sample.world0
                   = Raise (ValueError
                       "Bucket names must start and end with a number or letter."))
    by (vm_compute; reflexivity).
  split; [exact Hraise|].
  intros Hc. destruct (Hc Sample.world0) as (a & w' & Hok).
  rewrite Hraise in Hok. discriminate Hok.
Qed.

(** * Beyond the claims *)

(** ** The generator, draw by draw *)

Section DrawFacts.

Context {Rand : Type} {sources : RandomSources Rand}.

Lemma comprehension_draws {A B : Type} (f : Z -> Rand -> A * Rand) (h : A -> B)
    (n : nat) (w : World Rand) :
  comprehension n (fun w0 => (x <- draw (f (today w0)) ;; ret (h x)) w0) w
  = let '(l, g) := draws (f (today w)) n (rng w) in
    Ok (map h l, mkWorld g (today w) (gcs w) (stdout w)).
Proof.
  revert w. induction n as [|n IH]; intros w.
  - destruct w. reflexivity.
  - simpl. unfold bind at 1. unfold bind at 1. unfold draw at 1.
    destruct (f (today w) (rng w)) as [a g1]. simpl.
    unfold bind at 1. rewrite IH. simpl.
    destruct (draws (f (today w)) n g1) as [l g2]. reflexivity.
Qed.

End DrawFacts.

Section DrawByColumn.

Context {Rand : Type} {sources : RandomSources Rand}.

Lemma comprehension_ext {A : Type} (m m' : M Rand A) (n : nat) (w : World Rand) :
  (forall w0, m w0 = m' w0) -> comprehension n m w = comprehension n m' w.
Proof.
  intros Hm. revert w. induction n as [|n IH]; intros w; [reflexivity|].
  simpl. unfold bind at 1 3. rewrite Hm. destruct (m' w) as [[a w1]|e]; [|reflexivity].
  unfold bind. now rewrite IH.
Qed.

Lemma comprehension_name (n : nat) (w : World Rand) :
  comprehension n name w
  = let '(l, g) := draws fake_name n (rng w) in
    Ok (l, mkWorld g (today w) (gcs w) (stdout w)).
Proof.
  rewrite (comprehension_ext _
    (fun w0 => (x <- draw ((fun _ : Z => fake_name) (today w0)) ;; ret (id x)) w0)).
  - rewrite (comprehension_draws (fun _ => fake_name) id).
    destruct (draws fake_name n (rng w)) as [l g]. now rewrite map_id.
  - intros w0. unfold name, bind, draw, ret, id.
    destruct (fake_name (rng w0)). reflexivity.
Qed.

Lemma comprehension_word (n : nat) (w : World Rand) :
  comprehension n word w
  = let '(l, g) := draws fake_word n (rng w) in
    Ok (l, mkWorld g (today w) (gcs w) (stdout w)).
Proof.
  rewrite (comprehension_ext _
    (fun w0 => (x <- draw ((fun _ : Z => fake_word) (today w0)) ;; ret (id x)) w0)).
  - rewrite (comprehension_draws (fun _ => fake_word) id).
    destruct (draws fake_word n (rng w)) as [l g]. now rewrite map_id.
  - intros w0. unfold word, bind, draw, ret, id.
    destruct (fake_word (rng w0)). reflexivity.
Qed.

Lemma comprehension_amount (n : nat) (w : World Rand) :
  comprehension n (x <- uniform (inject_Z 10) (inject_Z 1000) ;; ret (Float.round2 x)) w
  = let '(l, g) := draws (random_uniform (inject_Z 10) (inject_Z 1000)) n (rng w) in
    Ok (map Float.round2 l, mkWorld g (today w) (gcs w) (stdout w)).
Proof.
  rewrite (comprehension_ext _
    (fun w0 => (x <- draw ((fun _ : Z => random_uniform (inject_Z 10) (inject_Z 1000))
                             (today w0)) ;; ret (Float.round2 x)) w0)).
  - apply (comprehension_draws
             (fun _ => random_uniform (inject_Z 10) (inject_Z 1000)) Float.round2).
  - reflexivity.
Qed.

Lemma comprehension_date (n : nat) (w : World Rand) :
  comprehension n (date_between (Days (-30)) Today) w
  = let '(l, g) := draws (fake_date_between_dates (today w + -30) (today w)) n (rng w) in
    Ok (l, mkWorld g (today w) (gcs w) (stdout w)).
Proof.
  rewrite (comprehension_ext _
    (fun w0 => (x <- draw ((fun now : Z => fake_date_between_dates (now + -30) now)
                             (today w0)) ;; ret (id x)) w0)).
  - rewrite (comprehension_draws
               (fun now => fake_date_between_dates (now + -30) now) id).
    destruct (draws _ n (rng w)) as [l g]. now rewrite map_id.
  - intros w0. unfold date_between, bind, draw, ret, id, parse_date.
    destruct (fake_date_between_dates _ _ (rng w0)). reflexivity.
Qed.

(** X1: the dict is filled column by column.  From the random state at the
    call, the N names are drawn first, then the N amounts, then the N dates
    (between the clock's date less 30 days and that date), then the N words,
    each draw from the state the one before left; the world that results
    differs in the random state only. *)
Theorem build_data_draws_by_column (N : Z) (w : World Rand) :
  let n := range_len N in
  let '(names, g1) := draws fake_name n (rng w) in
  let '(samples, g2) := draws (random_uniform (inject_Z 10) (inject_Z 1000)) n g1 in
  let '(dates, g3) :=
    draws (fake_date_between_dates (today w + -30) (today w)) n g2 in
  let '(words, g4) := draws fake_word n g3 in
  build_data N w
  = Ok ([ ("order_id", map Frame.CInt (map Z.of_nat (seq 1 n)));
          ("customer_name", map Frame.CStr names);
          ("order_amount", map Frame.CFloat (map Float.round2 samples));
          ("order_date", map Frame.CDate dates);
          ("product", map Frame.CStr words) ],
        mkWorld g4 (today w) (gcs w) (stdout w)).
Proof.
  cbv zeta. unfold build_data.
  unfold bind at 1. rewrite comprehension_name.
  destruct (draws fake_name (range_len N) (rng w)) as [names g1].
  unfold bind at 1. rewrite comprehension_amount. simpl rng. simpl today.
  destruct (draws (random_uniform _ _) (range_len N) g1) as [samples g2].
  unfold bind at 1. rewrite comprehension_date. simpl rng. simpl today.
  destruct (draws (fake_date_between_dates _ _) (range_len N) g2) as [dates g3].
  unfold bind at 1. rewrite comprehension_word. simpl rng.
  destruct (draws fake_word (range_len N) g3) as [words g4].
  unfold ret. simpl. now rewrite py_range_from_1.
Qed.

End DrawByColumn.

(** ** Counts that give no order *)

Section EdgeFacts.

Context {Rand : Type} {sources : RandomSources Rand} {service : StorageService}.

(** X2: a count of zero or below draws nothing: the text is the header line
    alone and the random state is left as it was.  The callable then does
    what it does for the count 0: when the storage calls go through it
    uploads that one line as the blob and prints its message. *)
Theorem no_orders_for_nonpositive_count (N : Z) (bucket_name gcs_path : string)
    (w : World Rand) :
  N <= 0 ->
  build_csv N w
  = Ok ("order_id,customer_name,order_amount,order_date,product"
        ++ String Text.newline "", w)
  /\ generate_and_upload_sales_data bucket_name gcs_path (Some N) w
     = generate_and_upload_sales_data bucket_name gcs_path (Some 0) w
  /\ (client_error = None ->
      validate_name bucket_name = Ok bucket_name ->
      upload_error bucket_name gcs_path = None ->
      generate_and_upload_sales_data bucket_name gcs_path (Some N) w
      = Ok (tt, mkWorld (rng w) (today w)
                  (<[(bucket_name, gcs_path) :=
                       mkBlob ("order_id,customer_name,order_amount,order_date,product"
                               ++ String Text.newline "") "text/csv"]> (gcs w))
                  (app (stdout w)
                     ["Data uploaded to gs://" ++ bucket_name ++ "/" ++ gcs_path]))).
Proof.
  intros HN.
  assert (Hcsv : forall n : Z, n <= 0 ->
            build_csv n w
            = Ok ("order_id,customer_name,order_amount,order_date,product"
                  ++ String Text.newline "", w)).
  { intros n Hn. unfold build_csv, build_data, range_len, py_range.
    replace (Z.to_nat n) with O by lia.
    replace (Z.to_nat (n + 1 - 1)) with O by lia. reflexivity. }
  assert (Hrun : forall n : Z, n <= 0 ->
            generate_and_upload_sales_data bucket_name gcs_path (Some n) w
            = upload_csv bucket_name gcs_path
                ("order_id,customer_name,order_amount,order_date,product"
                 ++ String Text.newline "") w).
  { intros n Hn. unfold generate_and_upload_sales_data. simpl default.
    unfold bind at 1. now rewrite (Hcsv n Hn). }
  split; [now apply Hcsv|]. split.
  - rewrite (Hrun N HN), (Hrun 0) by lia. reflexivity.
  - intros Hc Hv Hu. rewrite (Hrun N HN). now apply upload_csv_returns.
Qed.

End EdgeFacts.

(** ** One task at a time *)

Lemma all_succeeded_Forall (done : list (Dag.task * Dag.outcome)) :
  DagCheck.all_succeeded done = true <-> Forall (fun p => snd p = Dag.success) done.
Proof.
  unfold DagCheck.all_succeeded. rewrite forallb_forall, List.Forall_forall.
  split; intros Hall p Hp; specialize (Hall p Hp).
  - now apply bool_decide_eq_true_1 in Hall.
  - now apply bool_decide_eq_true_2.
Qed.

Lemma task_in_declared_order (t : Dag.task) : In t Dag.declared_order.
Proof. destruct t; simpl; tauto. Qed.

(** X5: the DAG never has two tasks to choose from.  In every run a task
    may start exactly when all tasks so far have succeeded and it is the
    next one of the chain; so after a failure nothing may start, and after
    a success the next task, and only it, may. *)
Theorem ready_task_is_the_next (done : list (Dag.task * Dag.outcome)) (t : Dag.task) :
  Dag.run done ->
  (Dag.ready done t = true
   <-> Forall (fun p => snd p = Dag.success) done
       /\ Dag.declared_order !! length done = Some t).
Proof.
  intros Hrun. apply run_in_chain_runs in Hrun.
  assert (Hcheck : forallb DagCheck.ready_iff_next Dag.chain_runs = true)
    by (vm_compute; reflexivity).
  rewrite forallb_forall in Hcheck. specialize (Hcheck done Hrun).
  unfold DagCheck.ready_iff_next in Hcheck. rewrite forallb_forall in Hcheck.
  specialize (Hcheck t (task_in_declared_order t)).
  apply Bool.eqb_prop in Hcheck. rewrite Hcheck, andb_true_iff.
  rewrite all_succeeded_Forall. unfold DagCheck.is_next.
  rewrite bool_decide_eq_true. reflexivity.
Qed.

(** X6: a failure ends the run: every task that ran before the last one of
    a run succeeded.  So the end task is reached only after all seven tasks
    before it have run, in the declared order, and succeeded. *)
Theorem failure_ends_the_run (done : list (Dag.task * Dag.outcome)) :
  Dag.run done ->
  Forall (fun p => snd p = Dag.success) (removelast done)
  /\ (In Dag.end_task (map fst done) -> map fst done = Dag.declared_order).
Proof.
  intros Hrun. apply run_in_chain_runs in Hrun.
  assert (Hcheck : forallb (fun d => DagCheck.failure_is_last d
                                     && DagCheck.complete_is_full d)
                     Dag.chain_runs = true) by (vm_compute; reflexivity).
  rewrite forallb_forall in Hcheck. specialize (Hcheck done Hrun).
  apply andb_prop in Hcheck as [Hlast Hfull]. split.
  - now apply all_succeeded_Forall.
  - intros Hend. unfold DagCheck.complete_is_full in Hfull.
    apply orb_prop in Hfull as [Hno | Heq].
    + unfold DagCheck.has_task in Hno. apply negb_true_iff in Hno.
      apply bool_decide_eq_false_1 in Hno. exfalso. apply Hno.
      now apply list_elem_of_In.
    + now apply bool_decide_eq_true_1 in Heq.
Qed.

(** ** The text keeps the batch *)

Lemma representable_date (o : OrderRecord) :
  representable o -> Date.MINORDINAL <= order_date o <= Date.MAXORDINAL.
Proof. intros (_ & _ & _ & _ & Hd). exact Hd. Qed.

(** X7: the CSV text loses nothing of a batch.  Two batches of orders whose
    values the frame holds as they are (names and products without a
    carriage return, ids of an int64, amounts from 0 that a float holds to
    the hundredth, dates of the calendar) and whose CSV texts are the same
    are the same batch: as many orders, with the same five values each,
    also when names or products hold commas, quotes or line feeds. *)
Theorem payload_determines_the_batch (a b : list OrderRecord) :
  Forall representable a ->
  Forall representable b ->
  Csv.to_csv (data_of a) = Csv.to_csv (data_of b) ->
  a = b.
Proof.
  intros Ha Hb Heq.
  apply (f_equal Csv.reader) in Heq. rewrite !reader_data_of in Heq.
  injection Heq as Heq.
  revert b Hb Heq. induction Ha as [|x a Hx _ IH]; intros b Hb Heq.
  - destruct b; [reflexivity | discriminate Heq].
  - destruct b as [|y b]; [discriminate Heq|].
    apply Forall_cons_iff in Hb as [Hy Hb].
    cbn [map] in Heq.
    assert (Hhead : fields_of x = fields_of y) by congruence.
    assert (Htail : map fields_of a = map fields_of b) by congruence.
    f_equal.
    + apply fields_of_inj; [now apply representable_date.. | exact Hhead].
    + now apply IH.
Qed.

(** ** The groups of the second query *)

Section GroupFacts.

Import Grouping.

#[local] Abbreviation slt := OrdersEx.String_as_OT.lt.

Lemma slt_irrefl (a : string) : ~ slt a a.
Proof. apply (StrictOrder_Irreflexive (R := slt)). Qed.

Lemma slt_trans (a b c : string) : slt a b -> slt b c -> slt a c.
Proof. apply (StrictOrder_Transitive (R := slt)). Qed.

Lemma group_none (name : string) (groups : list (string * list OrderRecord)) :
  Forall (fun k => k <> name) (map fst groups) -> group name groups = [].
Proof.
  induction groups as [|[k os] rest IH]; simpl; intros Hall; [reflexivity|].
  apply Forall_cons_iff in Hall as [Hk Hrest].
  apply String.eqb_neq in Hk. rewrite Hk. simpl. now apply IH.
Qed.

Lemma above_ne (name : string) (keys : list string) :
  Forall (slt name) keys -> Forall (fun k => k <> name) keys.
Proof.
  apply List.Forall_impl. intros k Hlt ->. now apply (slt_irrefl name).
Qed.

Lemma group_cons (name k : string) (os : list OrderRecord)
    (rest : list (string * list OrderRecord)) :
  group name ((k, os) :: rest)
  = ((if String.eqb k name then os else []) ++ group name rest)%list.
Proof. reflexivity. Qed.

Lemma group_add (o : OrderRecord) (name : string)
    (groups : list (string * list OrderRecord)) :
  Sorted.StronglySorted slt (map fst groups) ->
  group name (Sql.add_to_groups o groups)
  = (group name groups ++ (if String.eqb (customer_name o) name then [o] else []))%list.
Proof.
  induction groups as [|[k os] rest IH]; intros Hs.
  - simpl. now rewrite !app_nil_r.
  - apply Sorted.StronglySorted_inv in Hs as [Hrest Hk]. simpl in Hk.
    cbn [Sql.add_to_groups].
    destruct (OrdersEx.String_as_OT.compare_spec (customer_name o) k) as [Heq|Hlt|Hgt].
    + rewrite Heq, !group_cons.
      destruct (String.eqb_spec k name) as [->|Hne].
      * rewrite (group_none name rest) by now apply above_ne.
        now rewrite !app_nil_r.
      * simpl. now rewrite app_nil_r.
    + rewrite (group_cons name (customer_name o)).
      destruct (String.eqb_spec (customer_name o) name) as [Hn|Hn].
      * rewrite (group_none name ((k, os) :: rest)); [reflexivity|].
        apply above_ne. simpl. constructor; [now rewrite <- Hn|].
        revert Hk. apply List.Forall_impl. intros k' Hk'.
        rewrite <- Hn. now apply slt_trans with k.
      * simpl. now rewrite app_nil_r.
    + rewrite !group_cons, (IH Hrest). now rewrite app_assoc.
Qed.

Lemma keys_add (o : OrderRecord) (groups : list (string * list OrderRecord)) :
  Sorted.StronglySorted slt (map fst groups) ->
  Sorted.StronglySorted slt (map fst (Sql.add_to_groups o groups))
  /\ (forall k, In k (map fst (Sql.add_to_groups o groups))
                <-> k = customer_name o \/ In k (map fst groups)).
Proof.
  induction groups as [|[k os] rest IH]; intros Hs.
  - simpl. split; [repeat constructor|]. intros k. intuition congruence.
  - pose proof Hs as Hs0.
    apply Sorted.StronglySorted_inv in Hs as [Hrest Hk]. simpl in Hk.
    cbn [Sql.add_to_groups].
    destruct (OrdersEx.String_as_OT.compare_spec (customer_name o) k) as [Heq|Hlt|Hgt].
    + simpl. split; [exact Hs0|]. intros k'. rewrite Heq. intuition congruence.
    + split.
      * cbn [map fst]. constructor; [exact Hs0|].
        constructor; [exact Hlt|].
        revert Hk. apply List.Forall_impl. intros k' Hk'. now apply slt_trans with k.
      * intros k'. simpl. intuition congruence.
    + destruct (IH Hrest) as [IHs IHk]. split.
      * cbn [map fst]. constructor; [exact IHs|].
        apply List.Forall_forall. intros k' Hin. apply IHk in Hin as [->|Hin];
          [exact Hgt|]. rewrite List.Forall_forall in Hk. now apply Hk.
      * intros k'. cbn [map fst In]. rewrite IHk. intuition congruence.
Qed.

Lemma nonempty_add (o : OrderRecord) (groups : list (string * list OrderRecord)) :
  Forall (fun g => snd g <> []) groups ->
  Forall (fun g => snd g <> []) (Sql.add_to_groups o groups).
Proof.
  induction groups as [|[k os] rest IH]; intros Hall.
  - repeat constructor. discriminate.
  - apply Forall_cons_iff in Hall as [Hos Hrest]. cbn [Sql.add_to_groups].
    destruct (OrdersEx.String_as_OT.compare _ _).
    + constructor; [|exact Hrest]. simpl. intros Heq. now apply app_eq_nil in Heq as [_ ?].
    + constructor; [discriminate|]. now constructor.
    + constructor; [exact Hos | now apply IH].
Qed.

Lemma total_add (o : OrderRecord) (groups : list (string * list OrderRecord)) :
  total (Sql.add_to_groups o groups) = S (total groups).
Proof.
  unfold total. induction groups as [|[k os] rest IH]; [reflexivity|].
  cbn [Sql.add_to_groups]. destruct (OrdersEx.String_as_OT.compare _ _); simpl.
  - rewrite !length_app. simpl. lia.
  - reflexivity.
  - rewrite !length_app in *. simpl in IH. rewrite IH. lia.
Qed.

Lemma grouped_add (o : OrderRecord) (sales : list OrderRecord) groups :
  grouped sales groups -> grouped (sales ++ [o]) (Sql.add_to_groups o groups).
Proof.
  intros (Hs & Hne & Hg & Ht). split; [apply keys_add, Hs|].
  split; [now apply nonempty_add|]. split.
  - intros name. rewrite (group_add o name groups Hs), Hg.
    unfold orders_of. rewrite List.filter_app. simpl.
    now destruct (String.eqb (customer_name o) name).
  - rewrite total_add, Ht, length_app. simpl. lia.
Qed.

Lemma grouped_fold (more sales : list OrderRecord) groups :
  grouped sales groups ->
  grouped (sales ++ more) (fold_left (fun g o => Sql.add_to_groups o g) more groups).
Proof.
  revert sales groups. induction more as [|o more IH]; intros sales groups Hg; simpl.
  - now rewrite app_nil_r.
  - replace (sales ++ o :: more)%list with ((sales ++ [o]) ++ more)%list
      by now rewrite <- app_assoc.
    apply IH. now apply grouped_add.
Qed.

Lemma grouped_group_by (sales : list OrderRecord) :
  grouped sales (Sql.group_by_customer sales).
Proof.
  apply (grouped_fold sales [] []). repeat split; try constructor.
Qed.

Lemma group_of_member (k : string) (os : list OrderRecord)
    (groups : list (string * list OrderRecord)) :
  Sorted.StronglySorted slt (map fst groups) ->
  In (k, os) groups -> group k groups = os.
Proof.
  induction groups as [|[k0 os0] rest IH]; intros Hs Hin; [contradiction|].
  apply Sorted.StronglySorted_inv in Hs as [Hrest Hk]. simpl in Hk.
  rewrite group_cons. destruct Hin as [Heq|Hin].
  - injection Heq as -> ->. rewrite String.eqb_refl.
    rewrite (group_none k rest) by now apply above_ne.
    apply app_nil_r.
  - assert (Hlt : slt k0 k).
    { rewrite List.Forall_forall in Hk. apply Hk.
      apply in_map_iff. now exists (k, os). }
    assert (Hne : String.eqb k0 k = false).
    { apply String.eqb_neq. intros ->. now apply (slt_irrefl k). }
    rewrite Hne. simpl. now apply IH.
Qed.

Lemma total_sum (groups : list (string * list OrderRecord)) :
  fold_right Z.add 0 (map (fun g => Z.of_nat (length (snd g))) groups)
  = Z.of_nat (total groups).
Proof.
  unfold total. induction groups as [|[k os] rest IH]; [reflexivity|].
  simpl. rewrite IH, length_app. lia.
Qed.

Lemma orders_of_nonempty (name : string) (sales : list OrderRecord) :
  orders_of name sales <> [] <-> In name (map customer_name sales).
Proof.
  unfold orders_of. split.
  - intros Hne. destruct (List.filter _ sales) as [|o l] eqn:Hf; [congruence|].
    assert (Hin : In o (List.filter (fun o => String.eqb (customer_name o) name) sales))
      by (rewrite Hf; now left).
    apply List.filter_In in Hin as [Hin Hname]. apply String.eqb_eq in Hname.
    apply in_map_iff. now exists o.
  - intros Hin Hnil. apply in_map_iff in Hin as (o & Hname & Hin).
    assert (Ho : In o (List.filter (fun o => String.eqb (customer_name o) name) sales)).
    { apply List.filter_In. split; [exact Hin|]. now apply String.eqb_eq. }
    rewrite Hnil in Ho. contradiction.
Qed.

End GroupFacts.

(** X9: the second query gives one row for every customer name of the
    orders table and for no other, by ascending name, so no name twice; the
    row counts the orders under that name and holds their amounts, and the
    counts add up to the number of orders.  Customers of one name are one
    customer here. *)
Theorem customer_totals_by_name (sales : list OrderRecord) :
  let totals := Sql.transform_bq_qry_2 sales in
  Sorted.StronglySorted OrdersEx.String_as_OT.lt (map Sql.customer totals)
  /\ (forall name : string,
        In name (map Sql.customer totals) <-> In name (map customer_name sales))
  /\ Forall (fun t =>
       Sql.spent t = map order_amount (Grouping.orders_of (Sql.customer t) sales)
       /\ Sql.number_of_orders t
          = Z.of_nat (length (Grouping.orders_of (Sql.customer t) sales))
       /\ 1 <= Sql.number_of_orders t) totals
  /\ fold_right Z.add 0 (map Sql.number_of_orders totals) = Z.of_nat (length sales).
Proof.
  cbv zeta. unfold Sql.transform_bq_qry_2.
  destruct (grouped_group_by sales) as (Hs & Hne & Hg & Ht).
  set (groups := Sql.group_by_customer sales) in *.
  assert (Hkeys : map Sql.customer
                    (map (fun g => Sql.mkTotal (fst g) (Z.of_nat (length (snd g)))
                                     (map order_amount (snd g))) groups)
                  = map fst groups) by (rewrite map_map; reflexivity).
  rewrite Hkeys. split; [exact Hs|]. split; [|split].
  - intros name. rewrite <- orders_of_nonempty, <- Hg. split.
    + intros Hin. apply in_map_iff in Hin as ([k os] & Hk & Hin). simpl in Hk. subst k.
      rewrite (group_of_member name os groups Hs Hin).
      rewrite List.Forall_forall in Hne. exact (Hne _ Hin).
    + intros Hgroup. destruct (in_dec String.string_dec name (map fst groups))
        as [Hin|Hout]; [exact Hin|].
      exfalso. apply Hgroup. apply group_none.
      apply List.Forall_forall. intros k Hk ->. contradiction.
  - apply Forall_map, List.Forall_forall. intros [k os] Hin. cbn [Sql.customer
      Sql.spent Sql.number_of_orders fst snd].
    rewrite <- Hg, (group_of_member k os groups Hs Hin).
    split; [reflexivity|]. split; [reflexivity|].
    rewrite List.Forall_forall in Hne. specialize (Hne _ Hin). simpl in Hne.
    destruct os; [congruence | simpl; lia].
  - rewrite map_map. cbn [Sql.number_of_orders]. rewrite total_sum, Ht. reflexivity.
Qed.

(** ** Runs of the executor *)

Ltac prove_run :=
  lazymatch goal with
  | |- Dag.run [] => exact Dag.run_nil
  | |- Dag.run ?l =>
      let l' := eval vm_compute in (removelast l) in
      let t := eval vm_compute in (fst (List.last l (Dag.start_task, Dag.success))) in
      let o := eval vm_compute in (snd (List.last l (Dag.start_task, Dag.success))) in
      apply (Dag.run_step l' t o); [prove_run | vm_compute; reflexivity]
  end.

Lemma run_to_runs (k : nat) (o : Dag.outcome) : (k < 8)%nat -> Dag.run (Dag.run_to k o).
Proof.
  intros Hk.
  do 8 (destruct k as [|k]; [destruct o; vm_compute; prove_run|]). lia.
Qed.

Section ExecutorFacts.

Context {Rand : Type} {sources : RandomSources Rand} {service : StorageService}.

Lemma run_tasks_shape (cfg : Config) (ts : Z) (todo : list Dag.task)
    (s : Job.State) :
  fst (Job.run_tasks cfg ts todo s) = map (fun t => (t, Dag.success)) todo
  \/ exists k : nat,
       (k < length todo)%nat
       /\ fst (Job.run_tasks cfg ts todo s)
          = (map (fun t => (t, Dag.success)) (take k todo)
             ++ [(nth k todo Dag.end_task, Dag.failed)])%list.
Proof.
  revert s. induction todo as [|t todo IH]; intros s; [now left|].
  cbn [Job.run_tasks]. destruct (Job.execute cfg ts t s) as [s'|reason].
  - destruct (IH s') as [Hall | (k & Hk & Hfail)];
      destruct (Job.run_tasks cfg ts todo s') as [done s'']; simpl in *.
    + left. now rewrite Hall.
    + right. exists (S k). split; [lia|]. now rewrite Hfail.
  - right. exists O. split; [simpl; lia | reflexivity].
Qed.

(** X10: the executor keeps to the dependencies.  Whatever the state and
    the configuration, the tasks it carries out form a run the DAG allows;
    it stops at the first task that fails, and if none fails all eight
    tasks have run in the declared order. *)
Theorem dag_run_is_a_run (cfg : Config) (current_timestamp : Z) (s : Job.State) :
  let done := fst (Job.dag_run cfg current_timestamp s) in
  Dag.run done
  /\ Forall (fun p => snd p = Dag.success) (removelast done)
  /\ (Forall (fun p => snd p = Dag.success) done -> done = Dag.full_run).
Proof.
  cbv zeta. unfold Job.dag_run.
  destruct (run_tasks_shape cfg current_timestamp Dag.declared_order s)
    as [Hall | (k & Hk & Hfail)].
  - rewrite Hall. fold Dag.full_run. split; [exact full_run_runs|].
    split; [|reflexivity].
    vm_compute. repeat constructor.
  - rewrite Hfail. fold (Dag.run_to k Dag.failed).
    change (length Dag.declared_order) with 8%nat in Hk.
    split; [now apply run_to_runs|]. split.
    + unfold Dag.run_to. rewrite removelast_last.
      apply Forall_map, List.Forall_forall. reflexivity.
    + intros Hsucc. exfalso. unfold Dag.run_to in Hsucc.
      apply Forall_app in Hsucc as [_ Hlast].
      apply Forall_cons_iff in Hlast as [Hlast _]. discriminate Hlast.
Qed.

End ExecutorFacts.

(** ** The id that the call repeats *)

Section CallFacts.

Context {Rand : Type} {sources : RandomSources Rand}.

(** X12: order ids are not unique in the orders table.  The arguments of
    the CALL carry the id 234, and a batch of N >= 234 orders, such as the
    500 the DAG asks for, holds an order with that id.  So in any table
    that holds the orders of the batch, the INSERT of the procedure with
    those arguments leaves the id 234 at least twice. *)
Theorem call_repeats_a_generated_id (N : Z) (w : World Rand) :
  order_id Sql.call_arguments <= N ->
  exists (orders : list OrderRecord) (w' : World Rand),
    build_data N w = Ok (data_of orders, w')
    /\ order_id Sql.call_arguments = 234
    /\ In 234 (map order_id orders)
    /\ (forall table : list OrderRecord,
          incl orders table ->
          exists table' : list OrderRecord,
            Sql.insert_sales_orders Sql.call_arguments (Some table) = Done table'
            /\ (2 <= count_occ Z.eq_dec (map order_id table') 234%Z)%nat
            /\ ~ List.NoDup (map order_id table')).
Proof.
  intros HN. change (order_id Sql.call_arguments) with 234 in HN.
  destruct (build_csv_returns N w)
    as (csv & w' & _ & orders & Hdata & _ & _ & _ & Hids & _).
  exists orders, w'. split; [exact Hdata|]. split; [reflexivity|].
  assert (Hin : In 234 (map order_id orders)).
  { rewrite Hids. apply in_map_iff. exists 234%nat. split; [reflexivity|].
    apply in_seq. unfold range_len. lia. }
  split; [exact Hin|].
  intros table Hincl. exists (table ++ [Sql.call_arguments])%list.
  split; [reflexivity|].
  assert (Hcount : (2 <= count_occ Z.eq_dec
                          (map order_id (table ++ [Sql.call_arguments])%list) 234%Z)%nat).
  { rewrite map_app, count_occ_app.
    assert (Hin' : In 234 (map order_id table)).
    { apply in_map_iff in Hin as (o & Ho & Hino).
      apply in_map_iff. exists o. split; [exact Ho | now apply Hincl]. }
    apply (count_occ_In Z.eq_dec) in Hin'. simpl. lia. }
  split; [exact Hcount|].
  intros Hnodup. rewrite (NoDup_count_occ Z.eq_dec) in Hnodup.
  specialize (Hnodup 234). lia.
Qed.

End CallFacts.

(** * Beyond the claims, on sample runs *)

Lemma no_orders_for_nonpositive_count_witness :
  -3 <= 0
  /\ build_csv (-3) Sample.world0
     = Ok ("order_id,customer_name,order_amount,order_date,product"
           ++ String Text.newline "", Sample.world0)
  /\ generate_and_upload_sales_data "sales-bucket" "orders/sales.csv" (Some (-3))
       Sample.world0
     = generate_and_upload_sales_data "sales-bucket" "orders/sales.csv" (Some 0)
         Sample.world0.
Proof.
  split; [lia|].
  destruct (no_orders_for_nonpositive_count (-3) "sales-bucket" "orders/sales.csv"
              Sample.world0) as (Hcsv & Hsame & _); [lia|].
  split; [exact Hcsv | exact Hsame].
Defined.

Lemma ready_task_is_the_next_witness :
  Dag.run [(Dag.start_task, Dag.success)]
  /\ (Dag.ready [(Dag.start_task, Dag.success)] Dag.generate_sales_data = true
      <-> Forall (fun p => snd p = Dag.success) [(Dag.start_task, Dag.success)]
          /\ Dag.declared_order !! length [(Dag.start_task, Dag.success)]
             = Some Dag.generate_sales_data).
Proof.
  assert (Hrun : Dag.run [(Dag.start_task, Dag.success)]) by prove_run.
  split; [exact Hrun|].
  exact (ready_task_is_the_next [(Dag.start_task, Dag.success)]
           Dag.generate_sales_data Hrun).
Defined.

Lemma failure_ends_the_run_witness :
  Dag.run (Dag.run_to 3 Dag.failed)
  /\ Forall (fun p => snd p = Dag.success) (removelast (Dag.run_to 3 Dag.failed))
  /\ (In Dag.end_task (map fst (Dag.run_to 3 Dag.failed)) ->
      map fst (Dag.run_to 3 Dag.failed) = Dag.declared_order).
Proof.
  assert (Hrun : Dag.run (Dag.run_to 3 Dag.failed)) by (apply run_to_runs; lia).
  split; [exact Hrun|].
  exact (failure_ends_the_run (Dag.run_to 3 Dag.failed) Hrun).
Defined.

Lemma payload_determines_the_batch_witness :
  let batch := [Sql.call_arguments; mkOrder 2 "Smith, John" 25750 739183 "widget"] in
  Forall representable batch
  /\ Csv.to_csv (data_of batch) = Csv.to_csv (data_of batch)
  /\ batch = batch.
Proof.
  cbv zeta.
  assert (Hok : Forall representable
                  [Sql.call_arguments; mkOrder 2 "Smith, John" 25750 739183 "widget"]).
  { repeat constructor; vm_compute; congruence. }
  split; [exact Hok|]. split; [reflexivity|].
  exact (payload_determines_the_batch _ _ Hok Hok eq_refl).
Defined.

Lemma call_repeats_a_generated_id_witness :
  order_id Sql.call_arguments <= 500
  /\ exists (orders : list OrderRecord) (w' : World nat) (table' : list OrderRecord),
       build_data 500 Sample.world0 = Ok (data_of orders, w')
       /\ In 234 (map order_id orders)
       /\ Sql.insert_sales_orders Sql.call_arguments (Some orders) = Done table'
       /\ (2 <= count_occ Z.eq_dec (map order_id table') 234%Z)%nat
       /\ ~ List.NoDup (map order_id table').
Proof.
  assert (Hle : order_id Sql.call_arguments <= 500) by (vm_compute; discriminate).
  split; [exact Hle|].
  destruct (call_repeats_a_generated_id 500 Sample.world0 Hle)
    as (orders & w' & Hdata & _ & Hin & Htable).
  destruct (Htable orders (incl_refl orders)) as (table' & Hcall & Hcount & Hdup).
  exists orders, w', table'. repeat split; assumption.
Defined.
